(** * wallpaper_ui: parameter widgets and the preview pipeline

    A shallow embedding of [wallpaper_ui.pyw]: the two parameter widgets
    ([NumParameter], [ColorParameter]) and the window that owns them
    ([MainWindow]), with the Qt widgets they are built from.

    Conventions of the embedding.
    - A Python object is a record of its attributes; a method is a function
      from the object (and its arguments) to the updated object.
    - A Qt signal is synchronous: [emit] runs the connected slots before it
      returns.  A widget operation returns the widget together with the
      signal it emitted, if any, and the owner runs the slot.
    - Python's [int] is [Z]; Python's [float] is modelled by an exact rational
      ([Q]), so binary rounding error is not part of the model.
    - The bindings are PySide2 (the first import the program tries, and the
      only one that has [QColor.toTuple]): a Python float handed to a C++
      [int] parameter is truncated toward zero. *)

From Stdlib Require Import ZArith QArith Qround Qabs Lqa Lia.
From Stdlib Require Import Bool List String Ascii.
From Stdlib.Strings Require Import Byte.
Import ListNotations.

Local Open Scope Z_scope.

(** ** Python numbers *)

Inductive pytype : Set := TInt | TFloat.

Inductive pynum : Set :=
| PyInt (z : Z)
| PyFloat (q : Q).

Definition type_of (v : pynum) : pytype :=
  match v with PyInt _ => TInt | PyFloat _ => TFloat end.

(** Truncation toward zero: the conversion of a float to a C++ [int]. *)
Definition Qtruncate (q : Q) : Z :=
  if Qle_bool 0 q then Qfloor q else Qceiling q.

Definition as_int (v : pynum) : Z :=
  match v with PyInt z => z | PyFloat q => Qtruncate q end.

Definition as_double (v : pynum) : Q :=
  match v with PyInt z => inject_Z z | PyFloat q => q end.

(** [value * 100] *)
Definition py_mul100 (v : pynum) : pynum :=
  match v with
  | PyInt z => PyInt (z * 100)
  | PyFloat q => PyFloat (q * 100)
  end.

(** [value / 100.0] for an [int] value *)
Definition py_div100 (z : Z) : pynum := PyFloat (inject_Z z / 100).

(** Truth value of a number ([if single_step:]). *)
Definition py_truthy (v : pynum) : bool :=
  match v with
  | PyInt z => negb (z =? 0)
  | PyFloat q => negb (Qeq_bool q 0)
  end.

Definition py_le (a b : pynum) : Prop := (as_double a <= as_double b)%Q.

Definition Qlt_bool (a b : Q) : bool := negb (Qle_bool b a).

(** ** Qt widgets *)

(** Rounding of a [QDoubleSpinBox] to its [decimals] (2, never changed by the
    program): nearest multiple of 1/100, ties away from zero, in lowest
    terms. *)
Definition Qround_half_away (x : Q) : Z :=
  if Qle_bool 0 x then Qfloor (x + (1 # 2)) else Qceiling (x - (1 # 2)).

Definition round2 (x : Q) : Q := Qred (Qround_half_away (x * 100) # 100).

Module QSpinBox.

Record t : Set := mk {
  minimum : Z;
  maximum : Z;
  value : Z;
  singleStep : Z;
  signalsBlocked : bool
}.

(** [QSpinBox()] *)
Definition new : t := mk 0 99 0 1 false.

Definition blockSignals (b : bool) (w : t) : t :=
  mk (minimum w) (maximum w) (value w) (singleStep w) b.

Definition bound (w : t) (v : Z) : Z :=
  let v := if v <? minimum w then minimum w else v in
  if maximum w <? v then maximum w else v.

(** The widget and the [valueChanged] signal it emitted, if any. *)
Definition setValue (w : t) (v : Z) : t * option Z :=
  let v' := bound w v in
  let w' := mk (minimum w) (maximum w) v' (singleStep w) (signalsBlocked w) in
  (w', if (value w =? v') || signalsBlocked w then None else Some v').

Definition setRange (w : t) (lo hi : Z) : t * option Z :=
  let w' := mk lo (if lo <? hi then hi else lo) (value w) (singleStep w)
               (signalsBlocked w) in
  if bound w' (value w') =? value w' then (w', None)
  else setValue w' (bound w' (value w')).

Definition setSingleStep (w : t) (s : Z) : t :=
  if 0 <=? s then mk (minimum w) (maximum w) (value w) s (signalsBlocked w)
  else w.

End QSpinBox.

Module QDoubleSpinBox.

Record t : Set := mk {
  minimum : Q;
  maximum : Q;
  value : Q;
  singleStep : Q;
  signalsBlocked : bool
}.

(** [QDoubleSpinBox()] *)
Definition new : t := mk 0 (9999 # 100) 0 1 false.

Definition blockSignals (b : bool) (w : t) : t :=
  mk (minimum w) (maximum w) (value w) (singleStep w) b.

Definition bound (w : t) (v : Q) : Q :=
  let v := if Qlt_bool v (minimum w) then minimum w else v in
  if Qlt_bool (maximum w) v then maximum w else v.

(** The value is bounded as it is; [setValue] rounds before it calls this. *)
Definition setBounded (w : t) (v : Q) : t * option Q :=
  let v' := bound w v in
  let w' := mk (minimum w) (maximum w) v' (singleStep w) (signalsBlocked w) in
  (w', if Qeq_bool (value w) v' || signalsBlocked w then None else Some v').

Definition setValue (w : t) (v : Q) : t * option Q :=
  setBounded w (round2 v).

Definition setRange (w : t) (lo hi : Q) : t * option Q :=
  let lo := round2 lo in
  let hi := round2 hi in
  let w' := mk lo (if Qlt_bool lo hi then hi else lo) (value w) (singleStep w)
               (signalsBlocked w) in
  if Qeq_bool (bound w' (value w')) (value w') then (w', None)
  else setBounded w' (bound w' (value w')).

Definition setSingleStep (w : t) (s : Q) : t :=
  if Qle_bool 0 s then mk (minimum w) (maximum w) (value w) s (signalsBlocked w)
  else w.

End QDoubleSpinBox.

Module QSlider.

Record t : Set := mk {
  minimum : Z;
  maximum : Z;
  value : Z;
  singleStep : Z;
  signalsBlocked : bool
}.

(** [QSlider(Qt.Horizontal)] *)
Definition new : t := mk 0 99 0 1 false.

Definition blockSignals (b : bool) (w : t) : t :=
  mk (minimum w) (maximum w) (value w) (singleStep w) b.

Definition bound (w : t) (v : Z) : Z :=
  Z.max (minimum w) (Z.min (maximum w) v).

Definition setValue (w : t) (v : Z) : t * option Z :=
  let v' := bound w v in
  if value w =? v' then (w, None)
  else (mk (minimum w) (maximum w) v' (singleStep w) (signalsBlocked w),
        if signalsBlocked w then None else Some v').

Definition setRange (w : t) (lo hi : Z) : t * option Z :=
  let w' := mk lo (Z.max lo hi) (value w) (singleStep w) (signalsBlocked w) in
  if (minimum w =? minimum w') && (maximum w =? maximum w') then (w', None)
  else setValue w' (value w').

Definition setSingleStep (w : t) (s : Z) : t :=
  mk (minimum w) (maximum w) (value w) (Z.abs s) (signalsBlocked w).

End QSlider.

(** The edit field of a [NumParameter]: a [QSpinBox] for an [int] parameter,
    a [QDoubleSpinBox] otherwise. *)
Module Field.

Inductive t : Set :=
| Spin (w : QSpinBox.t)
| Double (w : QDoubleSpinBox.t).

Definition new (ty : pytype) : t :=
  match ty with
  | TInt => Spin QSpinBox.new
  | TFloat => Double QDoubleSpinBox.new
  end.

Definition kind (f : t) : pytype :=
  match f with Spin _ => TInt | Double _ => TFloat end.

Definition blockSignals (b : bool) (f : t) : t :=
  match f with
  | Spin w => Spin (QSpinBox.blockSignals b w)
  | Double w => Double (QDoubleSpinBox.blockSignals b w)
  end.

Definition signalsBlocked (f : t) : bool :=
  match f with
  | Spin w => QSpinBox.signalsBlocked w
  | Double w => QDoubleSpinBox.signalsBlocked w
  end.

Definition value (f : t) : pynum :=
  match f with
  | Spin w => PyInt (QSpinBox.value w)
  | Double w => PyFloat (QDoubleSpinBox.value w)
  end.

Definition minimum (f : t) : pynum :=
  match f with
  | Spin w => PyInt (QSpinBox.minimum w)
  | Double w => PyFloat (QDoubleSpinBox.minimum w)
  end.

Definition maximum (f : t) : pynum :=
  match f with
  | Spin w => PyInt (QSpinBox.maximum w)
  | Double w => PyFloat (QDoubleSpinBox.maximum w)
  end.

Definition setValue (f : t) (v : pynum) : t * option pynum :=
  match f with
  | Spin w =>
      let (w', e) := QSpinBox.setValue w (as_int v) in
      (Spin w', option_map PyInt e)
  | Double w =>
      let (w', e) := QDoubleSpinBox.setValue w (as_double v) in
      (Double w', option_map PyFloat e)
  end.

Definition setRange (f : t) (lo hi : pynum) : t * option pynum :=
  match f with
  | Spin w =>
      let (w', e) := QSpinBox.setRange w (as_int lo) (as_int hi) in
      (Spin w', option_map PyInt e)
  | Double w =>
      let (w', e) := QDoubleSpinBox.setRange w (as_double lo) (as_double hi) in
      (Double w', option_map PyFloat e)
  end.

Definition setSingleStep (f : t) (s : pynum) : t :=
  match f with
  | Spin w => Spin (QSpinBox.setSingleStep w (as_int s))
  | Double w => Double (QDoubleSpinBox.setSingleStep w (as_double s))
  end.

End Field.

(** ** NumParameter *)

Module NumParameter.

Record t : Set := mk {
  _type : pytype;
  field : Field.t;
  slider : QSlider.t;
  _dvalue : pynum;
  (** [blockSignals] of the parameter itself *)
  signalsBlocked : bool;
  (** the two [connect] calls that end [__init__] have run *)
  connected : bool;
  (** how many times [valueChanged] was delivered *)
  emitted : nat
}.

Definition with_field (f : Field.t) (p : t) : t :=
  mk (_type p) f (slider p) (_dvalue p) (signalsBlocked p) (connected p) (emitted p).
Definition with_slider (s : QSlider.t) (p : t) : t :=
  mk (_type p) (field p) s (_dvalue p) (signalsBlocked p) (connected p) (emitted p).
Definition with_dvalue (d : pynum) (p : t) : t :=
  mk (_type p) (field p) (slider p) d (signalsBlocked p) (connected p) (emitted p).
Definition blockSignals (b : bool) (p : t) : t :=
  mk (_type p) (field p) (slider p) (_dvalue p) b (connected p) (emitted p).
Definition with_connected (b : bool) (p : t) : t :=
  mk (_type p) (field p) (slider p) (_dvalue p) (signalsBlocked p) b (emitted p).

(** [self.valueChanged.emit()] *)
Definition valueChanged_emit (p : t) : t :=
  if signalsBlocked p then p
  else mk (_type p) (field p) (slider p) (_dvalue p) (signalsBlocked p)
          (connected p) (S (emitted p)).

Definition _updateValueFromField (p : t) (value : pynum) : t :=
  let s := QSlider.blockSignals true (slider p) in
  let value := match _type p with TFloat => py_mul100 value | TInt => value end in
  let s := fst (QSlider.setValue s (as_int value)) in
  let s := QSlider.blockSignals false s in
  valueChanged_emit (with_slider s p).

Definition _updateValueFromSlider (p : t) (value : Z) : t :=
  let f := Field.blockSignals true (field p) in
  let value := match _type p with TFloat => py_div100 value | TInt => PyInt value end in
  let f := fst (Field.setValue f value) in
  let f := Field.blockSignals false f in
  valueChanged_emit (with_field f p).

(** Delivery of a widget's [valueChanged] to its slot. *)
Definition field_valueChanged (p : t) (e : option pynum) : t :=
  match e with
  | Some v => if connected p then _updateValueFromField p v else p
  | None => p
  end.

Definition slider_valueChanged (p : t) (e : option Z) : t :=
  match e with
  | Some v => if connected p then _updateValueFromSlider p v else p
  | None => p
  end.

Definition setRange (p : t) (min_value max_value : pynum) : t :=
  let p := blockSignals true p in
  let (f, e) := Field.setRange (field p) min_value max_value in
  let p := field_valueChanged (with_field f p) e in
  let (s, e) :=
    match _type p with
    | TInt => QSlider.setRange (slider p) (as_int min_value) (as_int max_value)
    | TFloat => QSlider.setRange (slider p) (as_int (py_mul100 min_value))
                  (as_int (py_mul100 max_value))
    end in
  let p := slider_valueChanged (with_slider s p) e in
  blockSignals false p.

Definition setSingleStep (p : t) (value : pynum) : t :=
  let p := blockSignals true p in
  let p := with_field (Field.setSingleStep (field p) value) p in
  let s :=
    match _type p with
    | TInt => QSlider.setSingleStep (slider p) (as_int value)
    | TFloat => QSlider.setSingleStep (slider p) (as_int (py_mul100 value))
    end in
  blockSignals false (with_slider s p).

Definition setDefaultValue (p : t) (value : pynum) : t := with_dvalue value p.

Definition defaultValue (p : t) : pynum := _dvalue p.

Definition setValue (p : t) (value : pynum) (use_as_default : bool) : t :=
  let p := with_field (Field.blockSignals true (field p)) p in
  let p := with_slider (QSlider.blockSignals true (slider p)) p in
  let p := if use_as_default then setDefaultValue p value else p in
  let (f, e) := Field.setValue (field p) value in
  let p := field_valueChanged (with_field f p) e in
  let (s, e) :=
    match _type p with
    | TInt => QSlider.setValue (slider p) (as_int value)
    | TFloat => QSlider.setValue (slider p) (as_int (py_mul100 value))
    end in
  let p := slider_valueChanged (with_slider s p) e in
  let p := with_field (Field.blockSignals false (field p)) p in
  let p := with_slider (QSlider.blockSignals false (slider p)) p in
  valueChanged_emit p.

Definition resetToDefault (p : t) : t := setValue p (_dvalue p) false.

Definition value (p : t) : pynum :=
  match _type p with
  | TInt => PyInt (as_int (Field.value (field p)))
  | TFloat => Field.value (field p)
  end.

(** [NumParameter(value, value_range, single_step)].  [_dvalue] is first
    assigned after the initial [setValue]; nothing reads it before. *)
Definition __init__ (value : pynum) (value_range : option (pynum * pynum))
    (single_step : option pynum) : t :=
  let ty := type_of value in
  let p := mk ty (Field.new ty) QSlider.new value false false 0 in
  let p :=
    match value_range with
    | Some (lo, hi) => setRange p lo hi
    | None =>
        match ty with
        | TInt => setRange p (PyInt 0) (PyInt 4096)
        | TFloat => setRange p (PyInt 0) (PyInt 100)
        end
    end in
  let p :=
    match single_step with
    | Some s => if py_truthy s then setSingleStep p s else p
    | None => p
    end in
  let p := setValue p value false in
  let p := with_dvalue value p in
  with_connected true p.

(** The user edits the field (typing, stepping): the widget changes its own
    value and signals it. *)
Definition fieldEdited (p : t) (v : pynum) : t :=
  let (f, e) := Field.setValue (field p) v in
  field_valueChanged (with_field f p) e.

(** The user moves the slider. *)
Definition sliderMoved (p : t) (v : Z) : t :=
  let (s, e) := QSlider.setValue (slider p) v in
  slider_valueChanged (with_slider s p) e.

(** [self.field.minimum()] and [self.field.maximum()]: the range of the
    parameter, which keeps no other record of it. *)
Definition minimum (p : t) : pynum := Field.minimum (field p).
Definition maximum (p : t) : pynum := Field.maximum (field p).

(** Everything a client or the user can do to a parameter.  [ResetToDefault]
    is also what [eventFilter] runs when the middle button is released over
    the field or the slider with the control key down. *)
Inductive op : Set :=
| SetValue (v : pynum) (use_as_default : bool)
| SetRange (lo hi : pynum)
| SetSingleStep (s : pynum)
| SetDefaultValue (v : pynum)
| ResetToDefault
| FieldEdited (v : pynum)
| SliderMoved (v : Z).

Definition step (p : t) (o : op) : t :=
  match o with
  | SetValue v d => setValue p v d
  | SetRange lo hi => setRange p lo hi
  | SetSingleStep s => setSingleStep p s
  | SetDefaultValue v => setDefaultValue p v
  | ResetToDefault => resetToDefault p
  | FieldEdited v => fieldEdited p v
  | SliderMoved v => sliderMoved p v
  end.

Definition run (p : t) (ops : list op) : t := fold_left step ops p.

End NumParameter.


(** What has to hold of a parameter between two operations: its own signals
    are not blocked, the field is the widget of its type, and the field's
    value lies in the field's range (for a [QDoubleSpinBox], range and value
    are rounded to two decimals). *)
Definition QSpinBox_ok (w : QSpinBox.t) : Prop :=
  QSpinBox.minimum w <= QSpinBox.value w <= QSpinBox.maximum w.

Definition QDoubleSpinBox_ok (w : QDoubleSpinBox.t) : Prop :=
  (QDoubleSpinBox.minimum w <= QDoubleSpinBox.value w <= QDoubleSpinBox.maximum w)%Q
  /\ round2 (QDoubleSpinBox.minimum w) = QDoubleSpinBox.minimum w
  /\ round2 (QDoubleSpinBox.maximum w) = QDoubleSpinBox.maximum w
  /\ round2 (QDoubleSpinBox.value w) = QDoubleSpinBox.value w.

Definition Field_ok (f : Field.t) : Prop :=
  match f with
  | Field.Spin w => QSpinBox_ok w
  | Field.Double w => QDoubleSpinBox_ok w
  end.

Definition widgets_ok (p : NumParameter.t) : Prop :=
  Field.kind (NumParameter.field p) = NumParameter._type p
  /\ Field_ok (NumParameter.field p).

Definition NumParameter_inv (p : NumParameter.t) : Prop :=
  NumParameter.signalsBlocked p = false /\ widgets_ok p.

(** What [setValue] hands to the slider. *)
Definition slider_units (ty : pytype) (v : pynum) : Z :=
  match ty with
  | TInt => as_int v
  | TFloat => as_int (py_mul100 v)
  end.




(** ** QColor *)

Module QColor.

Record t : Set := mk {
  isValid : bool;
  red : byte;
  green : byte;
  blue : byte
}.

(** [QColor()] *)
Definition invalid : t := mk false x00 x00 x00.

Definition rgb (r g b : byte) : t := mk true r g b.

Definition hex_digit (n : N) : ascii :=
  match n with
  | 0 => "0" | 1 => "1" | 2 => "2" | 3 => "3" | 4 => "4" | 5 => "5"
  | 6 => "6" | 7 => "7" | 8 => "8" | 9 => "9" | 10 => "a" | 11 => "b"
  | 12 => "c" | 13 => "d" | 14 => "e" | _ => "f"
  end%N%char.

Definition hex_value (c : ascii) : option N :=
  let n := N_of_ascii c in
  (if (48 <=? n) && (n <=? 57) then Some (n - 48)
   else if (97 <=? n) && (n <=? 102) then Some (n - 87)
   else if (65 <=? n) && (n <=? 70) then Some (n - 55)
   else None)%N.

Definition hex2 (b : byte) : string :=
  let n := Byte.to_N b in
  String (hex_digit (n / 16)%N) (String (hex_digit (n mod 16)%N) EmptyString).

Definition parse2 (hi lo : ascii) : option byte :=
  match hex_value hi, hex_value lo with
  | Some h, Some l => Byte.of_N (16 * h + l)
  | _, _ => None
  end%N.

(** [color.name()]: ["#rrggbb"], lower case. *)
Definition name (c : t) : string :=
  String "#" (hex2 (red c) ++ hex2 (green c) ++ hex2 (blue c)).

(** [color.toTuple()[:3]] *)
Definition toTuple3 (c : t) : byte * byte * byte := (red c, green c, blue c).

Section FromString.

(** The colours Qt reads from any text that is not [#] followed by six
    characters: the SVG colour names and the other hexadecimal widths.
    The table is Qt's and is left open. *)
Variable other_format : string -> option (byte * byte * byte).

(** [QColor(text)] *)
Definition fromString (s : string) : t :=
  match s with
  | String "#" (String r1 (String r0 (String g1 (String g0
      (String b1 (String b0 EmptyString)))))) =>
      match parse2 r1 r0, parse2 g1 g0, parse2 b1 b0 with
      | Some r, Some g, Some b => rgb r g b
      | _, _, _ => invalid
      end
  | _ =>
      match other_format s with
      | Some (r, g, b) => rgb r g b
      | None => invalid
      end
  end.

End FromString.

End QColor.

(** A value handed to [QColor(...)]: a text or a colour. *)
Inductive pycolor : Set :=
| Str (s : string)
| Color (c : QColor.t).

Module QLineEdit.

Record t : Set := mk {
  text : string;
  signalsBlocked : bool
}.

(** [QLineEdit()] *)
Definition new : t := mk EmptyString false.

(** The widget and the [textChanged] signal it emitted, if any. *)
Definition setText (w : t) (s : string) : t * option string :=
  if String.eqb (text w) s then (w, None)
  else (mk s (signalsBlocked w), if signalsBlocked w then None else Some s).

End QLineEdit.

(** ** ColorParameter *)

Module ColorParameter.

Record t : Set := mk {
  field : QLineEdit.t;
  (** the colour in the button's style sheet, [None] before the first one *)
  color_button : option (byte * byte * byte);
  _dvalue : pycolor;
  (** the [connect] call that ends [__init__] has run *)
  connected : bool;
  (** the values [valueChanged] was delivered with, oldest first *)
  emitted : list string
}.

Definition with_field (f : QLineEdit.t) (p : t) : t :=
  mk f (color_button p) (_dvalue p) (connected p) (emitted p).
Definition with_dvalue (d : pycolor) (p : t) : t :=
  mk (field p) (color_button p) d (connected p) (emitted p).
Definition with_connected (b : bool) (p : t) : t :=
  mk (field p) (color_button p) (_dvalue p) b (emitted p).

(** [self.valueChanged.emit(value)] *)
Definition valueChanged_emit (p : t) (value : string) : t :=
  mk (field p) (color_button p) (_dvalue p) (connected p) (emitted p ++ [value]).

(** Delivery of the field's [textChanged], connected to
    [self.valueChanged.emit]. *)
Definition field_textChanged (p : t) (e : option string) : t :=
  match e with
  | Some s => if connected p then valueChanged_emit p s else p
  | None => p
  end.

Section Methods.

Variable other_format : string -> option (byte * byte * byte).

(** [QColor(value)] *)
Definition QColor_of (value : pycolor) : QColor.t :=
  match value with
  | Str s => QColor.fromString other_format s
  | Color c => c
  end.

Definition _setButtonColor (p : t) (color : pycolor) : t :=
  mk (field p) (Some (QColor.toTuple3 (QColor_of color))) (_dvalue p)
     (connected p) (emitted p).

Definition setDefaultValue (p : t) (value : pycolor) : t :=
  let color := QColor_of value in
  if negb (QColor.isValid color) then p
  else with_dvalue (Str (QColor.name color)) p.

Definition defaultValue (p : t) : pycolor := _dvalue p.

Definition setValue (p : t) (value : pycolor) (use_as_default : bool) : t :=
  let color := QColor_of value in
  if negb (QColor.isValid color) then p
  else
    let value := QColor.name color in
    let p := if use_as_default then setDefaultValue p (Str value) else p in
    let (f, e) := QLineEdit.setText (field p) value in
    let p := field_textChanged (with_field f p) e in
    let p := _setButtonColor p (Color color) in
    valueChanged_emit p value.

Definition resetToDefault (p : t) : t := setValue p (_dvalue p) false.

Definition value (p : t) : string := QLineEdit.text (field p).

(** [ColorParameter(color)].  [_dvalue] is first assigned after the
    initial [setValue]; nothing reads it before. *)
Definition __init__ (color : pycolor) : t :=
  let p := mk QLineEdit.new None color false [] in
  let p := setValue p color false in
  let p := with_dvalue color p in
  with_connected true p.

(** The user types in the field. *)
Definition textEdited (p : t) (s : string) : t :=
  let (f, e) := QLineEdit.setText (field p) s in
  field_textChanged (with_field f p) e.

Inductive op : Set :=
| SetValue (v : pycolor) (use_as_default : bool)
| SetDefaultValue (v : pycolor)
| ResetToDefault
| ColorPicked (c : QColor.t)
| TextEdited (s : string).

(** [ColorPicked]: the colour dialog's [currentColorChanged], connected to
    [setValue]; the dialog itself holds no state the parameter reads.
    [ResetToDefault] is also what [eventFilter] runs when the middle button
    is released over the field with the control key down. *)
Definition step (p : t) (o : op) : t :=
  match o with
  | SetValue v d => setValue p v d
  | SetDefaultValue v => setDefaultValue p v
  | ResetToDefault => resetToDefault p
  | ColorPicked c => setValue p (Color c) false
  | TextEdited s => textEdited p s
  end.

Definition run (p : t) (ops : list op) : t := fold_left step ops p.

End Methods.

End ColorParameter.

(** ** The window *)

Inductive result (A : Type) : Type :=
| Return (a : A)
| Raise (msg : string).
Arguments Return {A} a.
Arguments Raise {A} msg.

(** A [QImage(width, height, Format_ARGB32)] on which a renderer painted
    [img_markup]; the pixels are a function of the three. *)
Record QImage : Set := mkQImage {
  img_width : Z;
  img_height : Z;
  img_markup : string
}.

Inductive AspectRatioMode : Set :=
| IgnoreAspectRatio | KeepAspectRatio | KeepAspectRatioByExpanding.

Inductive TransformationMode : Set :=
| FastTransformation | SmoothTransformation.

(** [QPixmap(image).scaled(width, height, aspect, transform)]; the source is
    [None] for [QPixmap(None)]. *)
Record QPixmap : Set := scaled {
  pm_source : option QImage;
  pm_width : Z;
  pm_height : Z;
  pm_aspect : AspectRatioMode;
  pm_transform : TransformationMode
}.

Module ImageView.

Record t : Set := mk {
  (** the geometry the layout gave the label *)
  width : Z;
  height : Z;
  pixmap : option QPixmap
}.

Definition setImage (v : t) (image : option QImage) : t :=
  let image := scaled image (width v) (height v) KeepAspectRatio
                 SmoothTransformation in
  mk (width v) (height v) (Some image).

(** The layout resizes the label. *)
Definition setGeometry (v : t) (w h : Z) : t := mk w h (pixmap v).

End ImageView.

Module QComboBox.

Record t : Set := mk {
  (** text and user data of every item *)
  items : list (string * string);
  currentIndex : nat
}.

(** [currentData(Qt.UserRole)] *)
Definition currentData (c : t) : option string :=
  option_map snd (nth_error (items c) (currentIndex c)).

(** The index and the [currentIndexChanged] signal, if emitted. *)
Definition setCurrentIndex (c : t) (i : nat) : t * option nat :=
  if (i =? currentIndex c)%nat || (List.length (items c) <=? i)%nat then (c, None)
  else (mk (items c) i, Some i).

End QComboBox.

Inductive NumField : Set :=
| width_field | height_field | scale_field | rotation_field | slop_field
| stroke_width_field | wire_width_field | saturation_field | lightness_field
| seed_field.

Inductive ColorField : Set :=
| background_color_field | node_fill_color_field | node_stroke_color_field
| wire_stroke_color_field | connector_fill_color_field
| connector_stroke_color_field.

Definition NumField_eq_dec (a b : NumField) : {a = b} + {a <> b}.
Proof. decide equality. Defined.

Definition ColorField_eq_dec (a b : ColorField) : {a = b} + {a <> b}.
Proof. decide equality. Defined.

(** The arguments of one call of [wallpaper.generate]. *)
Record Request : Set := mkRequest {
  req_width : pynum;
  req_height : pynum;
  req_scale : pynum;
  req_rotate : pynum;
  req_slop : pynum;
  req_background : string;
  req_nodestroke : string;
  req_nodefill : string;
  req_wirestyle : option string;
  req_wirestroke : string;
  req_connfill : string;
  req_connstroke : string;
  req_strokewidth : pynum;
  req_wirewidth : pynum;
  req_saturation : pynum;
  req_lightness : pynum;
  req_seed : pynum
}.

Inductive generated : Set :=
| Markup (svg : string)
| GenerateRaised (msg : string).

Inductive FileEffect : Set :=
| WriteText (file_path : string) (text : string)
| SaveImage (file_path : string) (image : QImage).

(** [s.endswith(suffix)] *)
Definition endswith (s suffix : string) : bool :=
  let n := String.length s in
  let m := String.length suffix in
  (m <=? n)%nat && String.eqb (substring (n - m) m s) suffix.

Definition is_empty (s : string) : bool :=
  match s with EmptyString => true | _ => false end.

Module MainWindow.

Record t : Set := mk {
  nums : NumField -> NumParameter.t;
  colors : ColorField -> ColorParameter.t;
  wire_style_combo : QComboBox.t;
  view : ImageView.t;
  __svg_data : option string;
  __image : option QImage;
  (** the calls of [wallpaper.generate] so far, oldest first *)
  generate_calls : list Request;
  (** what was written to files so far, oldest first *)
  written : list FileEffect
}.

Definition with_num (f : NumField) (p : NumParameter.t) (w : t) : t :=
  mk (fun g => if NumField_eq_dec g f then p else nums w g) (colors w)
     (wire_style_combo w) (view w) (__svg_data w) (__image w)
     (generate_calls w) (written w).
Definition with_color (f : ColorField) (p : ColorParameter.t) (w : t) : t :=
  mk (nums w) (fun g => if ColorField_eq_dec g f then p else colors w g)
     (wire_style_combo w) (view w) (__svg_data w) (__image w)
     (generate_calls w) (written w).
Definition with_combo (c : QComboBox.t) (w : t) : t :=
  mk (nums w) (colors w) c (view w) (__svg_data w) (__image w)
     (generate_calls w) (written w).
Definition with_view (v : ImageView.t) (w : t) : t :=
  mk (nums w) (colors w) (wire_style_combo w) v (__svg_data w) (__image w)
     (generate_calls w) (written w).
Definition with_svg_data (d : option string) (w : t) : t :=
  mk (nums w) (colors w) (wire_style_combo w) (view w) d (__image w)
     (generate_calls w) (written w).
Definition with_image (i : option QImage) (w : t) : t :=
  mk (nums w) (colors w) (wire_style_combo w) (view w) (__svg_data w) i
     (generate_calls w) (written w).
Definition with_call (r : Request) (w : t) : t :=
  mk (nums w) (colors w) (wire_style_combo w) (view w) (__svg_data w)
     (__image w) (generate_calls w ++ [r]) (written w).
Definition with_effect (e : FileEffect) (w : t) : t :=
  mk (nums w) (colors w) (wire_style_combo w) (view w) (__svg_data w)
     (__image w) (generate_calls w) (written w ++ [e]).

(** The keyword arguments [generateImage] hands to the generator. *)
Definition request (w : t) : Request :=
  mkRequest
    (NumParameter.value (nums w width_field))
    (NumParameter.value (nums w height_field))
    (NumParameter.value (nums w scale_field))
    (NumParameter.value (nums w rotation_field))
    (NumParameter.value (nums w slop_field))
    (ColorParameter.value (colors w background_color_field))
    (ColorParameter.value (colors w node_stroke_color_field))
    (ColorParameter.value (colors w node_fill_color_field))
    (QComboBox.currentData (wire_style_combo w))
    (ColorParameter.value (colors w wire_stroke_color_field))
    (ColorParameter.value (colors w connector_fill_color_field))
    (ColorParameter.value (colors w connector_stroke_color_field))
    (NumParameter.value (nums w stroke_width_field))
    (NumParameter.value (nums w wire_width_field))
    (NumParameter.value (nums w saturation_field))
    (NumParameter.value (nums w lightness_field))
    (NumParameter.value (nums w seed_field)).

Section Collaborators.

Variable other_format : string -> option (byte * byte * byte).

(** Modelled from the spec: [wallpaper.generate], the generator module of
    the repository, is not among the sources.  The spec gives it as
    [generate(width, height, <named parameters>) -> markupText], which
    may raise, and as deterministic in the contents of the request: a
    function of the request. *)
Variable wallpaper_generate : Request -> generated.

(** [QSvgRenderer(QByteArray(markup.encode('utf8'))).isValid()] *)
Variable QSvgRenderer_isValid : string -> bool.

Definition generateImage (w : t) : t * result QImage :=
  let width := NumParameter.value (nums w width_field) in
  let height := NumParameter.value (nums w height_field) in
  let r := request w in
  let w := with_call r w in
  match wallpaper_generate r with
  | GenerateRaised msg => (w, Raise msg)
  | Markup svg =>
      let w := with_svg_data (Some svg) w in
      if negb (QSvgRenderer_isValid svg) then
        (with_svg_data None w, Raise "Generated SVG is not valid")
      else
        let image := mkQImage (as_int width) (as_int height) svg in
        (with_image (Some image) w, Return image)
  end.

Definition resizeEvent (w : t) : t :=
  with_view (ImageView.setImage (view w) (__image w)) w.

Definition updateImage (w : t) : t * result unit :=
  match generateImage w with
  | (w, Return image) =>
      (with_view (ImageView.setImage (view w) (Some image)) w, Return tt)
  | (w, Raise msg) => (w, Raise msg)
  end.

(** [file_path] is what the save dialog returned, empty when the dialog
    was dismissed.  [self.__image.save] on [None] is an [AttributeError].
    The text handed to [file.write] is recorded as it is; a file system
    that refuses the write is not modelled. *)
Definition showOutputDialog (w : t) (file_path : string) : t * result unit :=
  match __svg_data w with
  | None => (w, Return tt)
  | Some svg =>
      if is_empty svg then (w, Return tt)
      else if is_empty file_path then (w, Return tt)
      else if endswith file_path ".svg" then
        (with_effect (WriteText file_path svg) w, Return tt)
      else if endswith file_path ".png" || endswith file_path ".jpg" then
        match __image w with
        | Some image => (with_effect (SaveImage file_path image) w, Return tt)
        | None => (w, Raise "AttributeError")
        end
      else (w, Return tt)
  end.

Definition NumParameter_args (f : NumField)
  : pynum * option (pynum * pynum) * option pynum :=
  match f with
  | width_field => (PyInt 1920, Some (PyInt 1, PyInt 4096), Some (PyInt 128))
  | height_field => (PyInt 1080, Some (PyInt 1, PyInt 4096), Some (PyInt 128))
  | scale_field =>
      (PyFloat (8 # 10), Some (PyFloat (1 # 10), PyInt 10), Some (PyFloat (1 # 10)))
  | rotation_field => (PyFloat (-7), Some (PyInt (-360), PyInt 360), None)
  | slop_field => (PyInt 5, Some (PyInt 0, PyInt 50), Some (PyInt 1))
  | stroke_width_field =>
      (PyFloat 2, Some (PyInt 0, PyInt 10), Some (PyFloat (1 # 10)))
  | wire_width_field =>
      (PyFloat 2, Some (PyInt 0, PyInt 10), Some (PyFloat (1 # 10)))
  | saturation_field =>
      (PyFloat 1, Some (PyInt 0, PyInt 1), Some (PyFloat (5 # 100)))
  | lightness_field =>
      (PyFloat (5 # 10), Some (PyInt 0, PyInt 1), Some (PyFloat (5 # 100)))
  | seed_field => (PyInt 42, Some (PyInt 0, PyInt 9999), Some (PyInt 1))
  end.

Definition ColorParameter_arg (f : ColorField) : string :=
  match f with
  | background_color_field => "#ffffff"
  | node_fill_color_field => "#cccccc"
  | node_stroke_color_field => "#cccccc"
  | wire_stroke_color_field => "#cccccc"
  | connector_fill_color_field => "#ffffff"
  | connector_stroke_color_field => "#cccccc"
  end.

(** [MainWindow()]; [view_width] and [view_height] are the geometry of
    the still hidden label.  The window exists only if the result is a
    [Return]. *)
Definition __init__ (view_width view_height : Z) : t * result unit :=
  let w :=
    mk (fun f => let '(v, r, s) := NumParameter_args f in
                 NumParameter.__init__ v r s)
       (fun f => ColorParameter.__init__ other_format
                   (Color (QColor.fromString other_format
                             (ColorParameter_arg f))))
       (QComboBox.mk [("Bezier", "bezier"); ("Straight", "straight")]%string 0)
       (ImageView.mk view_width view_height None)
       None None [] [] in
  updateImage w.

(** A slot that raises does not stop the program: the binding reports
    the exception and the event loop goes on. *)
Fixpoint updateImage_times (n : nat) (w : t) : t :=
  match n with
  | O => w
  | S n => updateImage_times n (fst (updateImage w))
  end.

Inductive event : Set :=
| NumEvent (f : NumField) (o : NumParameter.op)
| ColorEvent (f : ColorField) (o : ColorParameter.op)
| WireStyleSelected (i : nat)
| ResizeEvent
| SplitterMoved
| ViewGeometry (width height : Z)
| OutputClicked (file_path : string).

(** Every [valueChanged] of a parameter runs [updateImage].  The slot
    reads the parameters through [value()], that is from their fields,
    and a parameter emits after its field has its new content: running
    the slot once per emission after the operation reads the same
    values. *)
Definition handle (w : t) (e : event) : t :=
  match e with
  | NumEvent f o =>
      let p := nums w f in
      let p' := NumParameter.step p o in
      updateImage_times (NumParameter.emitted p' - NumParameter.emitted p)
        (with_num f p' w)
  | ColorEvent f o =>
      let p := colors w f in
      let p' := ColorParameter.step other_format p o in
      updateImage_times
        (List.length (ColorParameter.emitted p')
         - List.length (ColorParameter.emitted p))
        (with_color f p' w)
  | WireStyleSelected i =>
      let (c, e) := QComboBox.setCurrentIndex (wire_style_combo w) i in
      match e with
      | Some _ => fst (updateImage (with_combo c w))
      | None => with_combo c w
      end
  | ResizeEvent => resizeEvent w
  | SplitterMoved => with_view (ImageView.setImage (view w) (__image w)) w
  | ViewGeometry width height =>
      with_view (ImageView.setGeometry (view w) width height) w
  | OutputClicked file_path => fst (showOutputDialog w file_path)
  end.

Definition run (w : t) (es : list event) : t := fold_left handle es w.

End Collaborators.

End MainWindow.

(** ** Vocabulary of the statements *)


(** The value edits of a colour parameter. *)
Inductive ColorEdit : Set :=
| ColorSetValue (v : pycolor) (use_as_default : bool)
| ColorPick (c : QColor.t)
| ColorType (s : string)
| ColorReset.

Definition ColorEdit_op (e : ColorEdit) : ColorParameter.op :=
  match e with
  | ColorSetValue v d => ColorParameter.SetValue v d
  | ColorPick c => ColorParameter.ColorPicked c
  | ColorType s => ColorParameter.TextEdited s
  | ColorReset => ColorParameter.ResetToDefault
  end.

(** The name of the last colour passed with [use_as_default=True] that Qt
    could read, [d0] if there is none. *)
Fixpoint last_default_color (other_format : string -> option (byte * byte * byte))
    (d0 : pycolor) (es : list ColorEdit) : pycolor :=
  match es with
  | [] => d0
  | ColorSetValue v true :: es =>
      let color := ColorParameter.QColor_of other_format v in
      if QColor.isValid color
      then last_default_color other_format (Str (QColor.name color)) es
      else last_default_color other_format d0 es
  | _ :: es => last_default_color other_format d0 es
  end.

(** The events that only show the window again. *)
Inductive Redisplay : Set :=
| RedisplayResize
| RedisplaySplitter
| RedisplayGeometry (width height : Z).

Definition Redisplay_event (e : Redisplay) : MainWindow.event :=
  match e with
  | RedisplayResize => MainWindow.ResizeEvent
  | RedisplaySplitter => MainWindow.SplitterMoved
  | RedisplayGeometry w h => MainWindow.ViewGeometry w h
  end.

(** A cached markup is one the generator returned and the renderer accepted,
    and the cached image is its picture at the size of that request. *)
Definition cache_inv (wallpaper_generate : Request -> generated)
    (QSvgRenderer_isValid : string -> bool) (w : MainWindow.t) : Prop :=
  forall svg, MainWindow.__svg_data w = Some svg ->
    QSvgRenderer_isValid svg = true
    /\ exists r, In r (MainWindow.generate_calls w)
         /\ wallpaper_generate r = Markup svg
         /\ MainWindow.__image w
            = Some (mkQImage (as_int (req_width r)) (as_int (req_height r)) svg).



(** ** Collaborators for the examples *)

Definition hex_only : string -> option (byte * byte * byte) := fun _ => None.

(** A generator whose markup the renderer refuses unless the seed is 42. *)
Definition sample_generate (r : Request) : generated :=
  match req_seed r with
  | PyInt 42 => Markup "<svg/>"
  | _ => Markup "not markup"
  end.

Definition sample_isValid (svg : string) : bool := String.eqb svg "<svg/>".

(** The window as built with these, and the same window at the moment the
    seed was set to 7 and its [valueChanged] is about to run the slot. *)
Definition sample_window : MainWindow.t :=
  fst (MainWindow.__init__ hex_only sample_generate sample_isValid 640 480).

Definition sample_window_seed7 : MainWindow.t :=
  MainWindow.with_num seed_field
    (NumParameter.setValue (MainWindow.nums sample_window seed_field) (PyInt 7)
       false)
    sample_window.

(** ** Vocabulary of the further statements *)
















(** The window has a cached image and the view shows a pixmap made from
    it, scaled with the aspect ratio kept and the smooth transformation. *)
Definition shows_cache (w : MainWindow.t) : Prop :=
  exists image pm,
    MainWindow.__image w = Some image
    /\ ImageView.pixmap (MainWindow.view w) = Some pm
    /\ pm_source pm = Some image
    /\ pm_aspect pm = KeepAspectRatio
    /\ pm_transform pm = SmoothTransformation.

(** Every parameter of the window is between two operations. *)
Definition params_ok (w : MainWindow.t) : Prop :=
  (forall f, NumParameter_inv (MainWindow.nums w f))
  /\ (forall f, ColorParameter.connected (MainWindow.colors w f) = true
                /\ QLineEdit.signalsBlocked
                     (ColorParameter.field (MainWindow.colors w f)) = false).

(** The request the window issues when it is built. *)
Definition startup_request : Request :=
  mkRequest (PyInt 1920) (PyInt 1080) (PyFloat (4 # 5)) (PyFloat (-7)) (PyInt 5)
    "#ffffff" "#cccccc" "#cccccc" (Some "bezier"%string) "#cccccc" "#ffffff"
    "#cccccc" (PyFloat 2) (PyFloat 2) (PyFloat 1) (PyFloat (1 # 2)) (PyInt 42).

(** ** Event filters *)

(** The events [eventFilter] tells apart: mouse events, with their type,
    button and keyboard modifiers, and every other event. *)
Inductive MouseButton : Set :=
| NoButton | LeftButton | RightButton | MiddleButton.

Inductive QEvent_Type : Set :=
| MouseButtonPress | MouseButtonRelease | MouseButtonDblClick | MouseMove.

Record KeyboardModifiers : Set := mkKeyboardModifiers {
  ShiftModifier : bool;
  ControlModifier : bool;
  AltModifier : bool;
  MetaModifier : bool;
  KeypadModifier : bool;
  GroupSwitchModifier : bool
}.

(** [event.modifiers() == Qt.ControlModifier]: the control key and no
    other modifier. *)
Definition only_ControlModifier (m : KeyboardModifiers) : bool :=
  ControlModifier m
  && negb (ShiftModifier m || AltModifier m || MetaModifier m
           || KeypadModifier m || GroupSwitchModifier m).

Inductive QEvent : Set :=
| QMouseEvent (type : QEvent_Type) (button : MouseButton)
    (modifiers : KeyboardModifiers)
| OtherEvent.

(** The object an event is on its way to. *)
Inductive watched : Set := the_field | the_slider | another_object.


(** [ColorParameter.eventFilter(obj, event)]. *)
Definition ColorParameter_eventFilter
    (other_format : string -> option (byte * byte * byte))
    (p : ColorParameter.t) (obj : watched) (event : QEvent)
  : ColorParameter.t * bool :=
  match obj, event with
  | the_field, QMouseEvent MouseButtonRelease button modifiers =>
      match button with
      | MiddleButton =>
          if only_ControlModifier modifiers
          then (ColorParameter.resetToDefault other_format p, true)
          else (p, false)
      | _ => (p, false)
      end
  | _, _ => (p, false)
  end.

(** * Properties *)

(** ** Rounding *)

Section Rounding.

Local Open Scope Q_scope.

Lemma Qle_bool_false (a b : Q) : Qle_bool a b = false -> b < a.
Proof.
  intros H. apply Qnot_le_lt. intros Hle.
  apply Qle_bool_iff in Hle. congruence.
Qed.

Lemma Qlt_bool_true (a b : Q) : Qlt_bool a b = true <-> a < b.
Proof.
  unfold Qlt_bool. split.
  - intros H. apply Qle_bool_false. now apply negb_true_iff.
  - intros H. apply negb_true_iff.
    destruct (Qle_bool b a) eqn:E; [|reflexivity].
    apply Qle_bool_iff in E. exfalso. now apply (Qlt_not_le a b).
Qed.

Lemma Qlt_bool_false (a b : Q) : Qlt_bool a b = false <-> b <= a.
Proof.
  unfold Qlt_bool. rewrite negb_false_iff. apply Qle_bool_iff.
Qed.

Lemma Qround_half_away_le (x y : Q) :
  x <= y -> (Qround_half_away x <= Qround_half_away y)%Z.
Proof.
  intros Hxy. unfold Qround_half_away.
  destruct (Qle_bool 0 x) eqn:Hx; destruct (Qle_bool 0 y) eqn:Hy.
  - apply Qfloor_resp_le. lra.
  - apply Qle_bool_iff in Hx. apply Qle_bool_false in Hy. lra.
  - apply Qle_bool_false in Hx. apply Qle_bool_iff in Hy.
    transitivity 0%Z.
    + change 0%Z with (Qceiling 0). apply Qceiling_resp_le. lra.
    + change 0%Z with (Qfloor 0). apply Qfloor_resp_le. lra.
  - apply Qceiling_resp_le. lra.
Qed.

Lemma Qround_half_away_near (x : Q) :
  Qabs (inject_Z (Qround_half_away x) - x) <= 1 # 2.
Proof.
  apply Qabs_Qle_condition. unfold Qround_half_away.
  destruct (Qle_bool 0 x).
  - pose proof (Qfloor_le (x + (1 # 2))) as H1.
    pose proof (Qlt_floor (x + (1 # 2))) as H2.
    rewrite inject_Z_plus in H2. change (inject_Z 1) with 1 in H2.
    split; lra.
  - pose proof (Qle_ceiling (x - (1 # 2))) as H1.
    pose proof (Qceiling_lt (x - (1 # 2))) as H2.
    unfold Z.sub in H2. rewrite inject_Z_plus, inject_Z_opp in H2.
    change (inject_Z 1) with 1 in H2. split; lra.
Qed.

Lemma Qround_half_away_Z (z : Z) : Qround_half_away (inject_Z z) = z.
Proof.
  assert (Hn : Qabs (inject_Z (Qround_half_away (inject_Z z)) - inject_Z z) <= 1 # 2)
    by apply Qround_half_away_near.
  apply Qabs_Qle_condition in Hn. destruct Hn as [H1 H2].
  set (r := Qround_half_away (inject_Z z)) in *.
  assert (inject_Z r < inject_Z (z + 1))
    by (rewrite inject_Z_plus; change (inject_Z 1) with 1; lra).
  assert (inject_Z (z - 1) < inject_Z r)
    by (unfold Z.sub; rewrite inject_Z_plus, inject_Z_opp;
        change (inject_Z 1) with 1; lra).
  rewrite <- Zlt_Qlt in *. lia.
Qed.

Lemma Qround_half_away_comp (x y : Q) :
  x == y -> Qround_half_away x = Qround_half_away y.
Proof.
  intros H.
  apply Z.le_antisymm; apply Qround_half_away_le; rewrite H; apply Qle_refl.
Qed.

Lemma round2_spec (x : Q) : round2 x == inject_Z (Qround_half_away (x * 100)) / 100.
Proof.
  unfold round2. rewrite Qred_correct. apply Qmake_Qdiv.
Qed.

Lemma round2_le (x y : Q) : x <= y -> round2 x <= round2 y.
Proof.
  intros H. rewrite !round2_spec.
  assert (Hz : (Qround_half_away (x * 100) <= Qround_half_away (y * 100))%Z)
    by (apply Qround_half_away_le; lra).
  rewrite Zle_Qle in Hz.
  apply Qmult_le_compat_r; [exact Hz|]. discriminate.
Qed.


Lemma round2_idem (x : Q) : round2 (round2 x) = round2 x.
Proof.
  unfold round2 at 1 3. f_equal. f_equal.
  transitivity (Qround_half_away (inject_Z (Qround_half_away (x * 100)))).
  - apply Qround_half_away_comp. rewrite round2_spec. field.
  - apply Qround_half_away_Z.
Qed.

(** Rounding moves a value by at most half a hundredth. *)
Lemma round2_near (x : Q) : Qabs (round2 x - x) <= 1 # 200.
Proof.
  pose proof (Qround_half_away_near (x * 100)) as H.
  apply Qabs_Qle_condition in H. destruct H as [H1 H2].
  apply Qabs_Qle_condition. rewrite round2_spec.
  set (r := inject_Z (Qround_half_away (x * 100))) in *.
  split.
  - apply Qmult_le_r with (z := 100); [reflexivity|].
    field_simplify. lra.
  - apply Qmult_le_r with (z := 100); [reflexivity|].
    field_simplify. lra.
Qed.

Lemma round2_inject_Z (z : Z) : round2 (inject_Z z) == inject_Z z.
Proof.
  rewrite round2_spec.
  rewrite (Qround_half_away_comp _ (inject_Z (z * 100))).
  - rewrite Qround_half_away_Z, inject_Z_mult. field.
  - rewrite inject_Z_mult. reflexivity.
Qed.

End Rounding.

(** ** The widgets keep their value in their range *)

Section Widgets.

Lemma QSpinBox_bound_in (w : QSpinBox.t) (v : Z) :
  QSpinBox.minimum w <= QSpinBox.maximum w ->
  QSpinBox.minimum w <= QSpinBox.bound w v <= QSpinBox.maximum w.
Proof.
  intros H. unfold QSpinBox.bound.
  destruct (v <? QSpinBox.minimum w) eqn:E1.
  - destruct (QSpinBox.maximum w <? QSpinBox.minimum w) eqn:E2; lia.
  - destruct (QSpinBox.maximum w <? v) eqn:E2; lia.
Qed.

Lemma QSpinBox_bound_id (w : QSpinBox.t) (v : Z) :
  QSpinBox.minimum w <= v <= QSpinBox.maximum w -> QSpinBox.bound w v = v.
Proof.
  intros H. unfold QSpinBox.bound.
  destruct (v <? QSpinBox.minimum w) eqn:E1; [lia|].
  destruct (QSpinBox.maximum w <? v) eqn:E2; lia.
Qed.

Lemma QSpinBox_setValue_ok (w : QSpinBox.t) (v : Z) :
  QSpinBox_ok w -> QSpinBox_ok (fst (QSpinBox.setValue w v)).
Proof.
  intros H. unfold QSpinBox_ok in *. simpl.
  apply QSpinBox_bound_in. lia.
Qed.

Lemma QSpinBox_setRange_ok (w : QSpinBox.t) (lo hi : Z) :
  QSpinBox_ok (fst (QSpinBox.setRange w lo hi)).
Proof.
  unfold QSpinBox.setRange.
  set (w' := QSpinBox.mk _ _ _ _ _).
  assert (Hr : QSpinBox.minimum w' <= QSpinBox.maximum w')
    by (subst w'; simpl; destruct (lo <? hi) eqn:E; lia).
  pose proof (QSpinBox_bound_in w' (QSpinBox.value w') Hr) as Hb.
  destruct (QSpinBox.bound w' (QSpinBox.value w') =? QSpinBox.value w') eqn:E.
  - apply Z.eqb_eq in E. unfold QSpinBox_ok. simpl fst. lia.
  - unfold QSpinBox_ok. simpl.
    apply (QSpinBox_bound_in w'). exact Hr.
Qed.


Lemma QDoubleSpinBox_bound_cases (w : QDoubleSpinBox.t) (v : Q) :
  QDoubleSpinBox.bound w v = v
  \/ QDoubleSpinBox.bound w v = QDoubleSpinBox.minimum w
  \/ QDoubleSpinBox.bound w v = QDoubleSpinBox.maximum w.
Proof.
  unfold QDoubleSpinBox.bound.
  destruct (Qlt_bool v (QDoubleSpinBox.minimum w));
    match goal with |- context [if ?c then _ else _] => destruct c end; auto.
Qed.

Lemma QDoubleSpinBox_bound_in (w : QDoubleSpinBox.t) (v : Q) :
  (QDoubleSpinBox.minimum w <= QDoubleSpinBox.maximum w ->
   QDoubleSpinBox.minimum w <= QDoubleSpinBox.bound w v <= QDoubleSpinBox.maximum w)%Q.
Proof.
  intros H. unfold QDoubleSpinBox.bound.
  destruct (Qlt_bool v (QDoubleSpinBox.minimum w)) eqn:E1.
  - destruct (Qlt_bool (QDoubleSpinBox.maximum w) (QDoubleSpinBox.minimum w)) eqn:E2.
    + apply Qlt_bool_true in E2. lra.
    + lra.
  - apply Qlt_bool_false in E1.
    destruct (Qlt_bool (QDoubleSpinBox.maximum w) v) eqn:E2.
    + lra.
    + apply Qlt_bool_false in E2. lra.
Qed.

Lemma QDoubleSpinBox_bound_id (w : QDoubleSpinBox.t) (v : Q) :
  (QDoubleSpinBox.minimum w <= v <= QDoubleSpinBox.maximum w)%Q ->
  QDoubleSpinBox.bound w v = v.
Proof.
  intros [H1 H2]. unfold QDoubleSpinBox.bound.
  destruct (Qlt_bool v (QDoubleSpinBox.minimum w)) eqn:E1.
  - apply Qlt_bool_true in E1. lra.
  - destruct (Qlt_bool (QDoubleSpinBox.maximum w) v) eqn:E2; [|reflexivity].
    apply Qlt_bool_true in E2. lra.
Qed.


Lemma QDoubleSpinBox_bound_round2 (w : QDoubleSpinBox.t) (v : Q) :
  round2 (QDoubleSpinBox.minimum w) = QDoubleSpinBox.minimum w ->
  round2 (QDoubleSpinBox.maximum w) = QDoubleSpinBox.maximum w ->
  round2 v = v ->
  round2 (QDoubleSpinBox.bound w v) = QDoubleSpinBox.bound w v.
Proof.
  intros Hlo Hhi Hv.
  destruct (QDoubleSpinBox_bound_cases w v) as [E | [E | E]]; rewrite E; auto.
Qed.

Lemma QDoubleSpinBox_setBounded_ok (w : QDoubleSpinBox.t) (v : Q) :
  (QDoubleSpinBox.minimum w <= QDoubleSpinBox.maximum w)%Q ->
  round2 (QDoubleSpinBox.minimum w) = QDoubleSpinBox.minimum w ->
  round2 (QDoubleSpinBox.maximum w) = QDoubleSpinBox.maximum w ->
  round2 v = v ->
  QDoubleSpinBox_ok (fst (QDoubleSpinBox.setBounded w v)).
Proof.
  intros Hr Hlo Hhi Hv. unfold QDoubleSpinBox_ok. simpl.
  repeat split; auto.
  - now apply QDoubleSpinBox_bound_in.
  - now apply QDoubleSpinBox_bound_in.
  - now apply QDoubleSpinBox_bound_round2.
Qed.

Lemma QDoubleSpinBox_setValue_ok (w : QDoubleSpinBox.t) (v : Q) :
  QDoubleSpinBox_ok w -> QDoubleSpinBox_ok (fst (QDoubleSpinBox.setValue w v)).
Proof.
  intros (Hr & Hlo & Hhi & _).
  apply QDoubleSpinBox_setBounded_ok; auto; [lra|apply round2_idem].
Qed.

Lemma QDoubleSpinBox_setRange_ok (w : QDoubleSpinBox.t) (lo hi : Q) :
  QDoubleSpinBox_ok w -> QDoubleSpinBox_ok (fst (QDoubleSpinBox.setRange w lo hi)).
Proof.
  intros (_ & _ & _ & Hv). unfold QDoubleSpinBox.setRange.
  set (w' := QDoubleSpinBox.mk _ _ _ _ _).
  assert (Hr : (QDoubleSpinBox.minimum w' <= QDoubleSpinBox.maximum w')%Q).
  { subst w'. simpl. destruct (Qlt_bool (round2 lo) (round2 hi)) eqn:E.
    - apply Qlt_bool_true in E. lra.
    - lra. }
  assert (Hlo : round2 (QDoubleSpinBox.minimum w') = QDoubleSpinBox.minimum w')
    by (subst w'; simpl; apply round2_idem).
  assert (Hhi : round2 (QDoubleSpinBox.maximum w') = QDoubleSpinBox.maximum w')
    by (subst w'; simpl; destruct (Qlt_bool (round2 lo) (round2 hi));
        apply round2_idem).
  assert (Hv' : round2 (QDoubleSpinBox.value w') = QDoubleSpinBox.value w')
    by (subst w'; simpl; exact Hv).
  pose proof (QDoubleSpinBox_bound_in w' (QDoubleSpinBox.value w') Hr) as Hb.
  destruct (Qeq_bool (QDoubleSpinBox.bound w' (QDoubleSpinBox.value w'))
              (QDoubleSpinBox.value w')) eqn:E.
  - apply Qeq_bool_iff in E. unfold QDoubleSpinBox_ok. simpl fst.
    repeat split; auto; rewrite <- E; apply Hb.
  - apply QDoubleSpinBox_setBounded_ok; auto.
    now apply QDoubleSpinBox_bound_round2.
Qed.


End Widgets.

(** ** NumParameter: what the operations keep *)

Section NumParameterInvariant.

Lemma Field_setValue_ok (f : Field.t) (v : pynum) :
  Field_ok f -> Field_ok (fst (Field.setValue f v)).
Proof.
  destruct f as [w | w]; simpl; intros H.
  - now apply (QSpinBox_setValue_ok w).
  - now apply (QDoubleSpinBox_setValue_ok w).
Qed.

Lemma Field_setRange_ok (f : Field.t) (lo hi : pynum) :
  Field_ok f -> Field_ok (fst (Field.setRange f lo hi)).
Proof.
  destruct f as [w | w]; simpl; intros H.
  - pose proof (QSpinBox_setRange_ok w (as_int lo) (as_int hi)) as H'.
    destruct (QSpinBox.setRange w (as_int lo) (as_int hi)). exact H'.
  - pose proof (QDoubleSpinBox_setRange_ok w (as_double lo) (as_double hi) H) as H'.
    destruct (QDoubleSpinBox.setRange w (as_double lo) (as_double hi)). exact H'.
Qed.

Lemma Field_setSingleStep_ok (f : Field.t) (s : pynum) :
  Field_ok f -> Field_ok (Field.setSingleStep f s).
Proof.
  destruct f as [w | w]; simpl; intros H.
  - unfold QSpinBox.setSingleStep. destruct (0 <=? as_int s); exact H.
  - unfold QDoubleSpinBox.setSingleStep. destruct (Qle_bool 0 (as_double s)); exact H.
Qed.

Lemma Field_blockSignals_ok (b : bool) (f : Field.t) :
  Field_ok f -> Field_ok (Field.blockSignals b f).
Proof. destruct f; simpl; auto. Qed.

Lemma Field_setValue_kind (f : Field.t) (v : pynum) :
  Field.kind (fst (Field.setValue f v)) = Field.kind f.
Proof. destruct f; reflexivity. Qed.

Lemma Field_setRange_kind (f : Field.t) (lo hi : pynum) :
  Field.kind (fst (Field.setRange f lo hi)) = Field.kind f.
Proof.
  destruct f as [w | w]; simpl.
  - destruct (QSpinBox.setRange w (as_int lo) (as_int hi)); reflexivity.
  - destruct (QDoubleSpinBox.setRange w (as_double lo) (as_double hi)); reflexivity.
Qed.

Lemma Field_setSingleStep_kind (f : Field.t) (s : pynum) :
  Field.kind (Field.setSingleStep f s) = Field.kind f.
Proof. destruct f; reflexivity. Qed.

Lemma Field_blockSignals_kind (b : bool) (f : Field.t) :
  Field.kind (Field.blockSignals b f) = Field.kind f.
Proof. destruct f; reflexivity. Qed.

(** A widget whose signals are blocked emits nothing. *)
Lemma Field_setValue_blocked (f : Field.t) (v : pynum) :
  snd (Field.setValue (Field.blockSignals true f) v) = None.
Proof.
  destruct f as [w | w]; simpl.
  - now rewrite orb_true_r.
  - now rewrite orb_true_r.
Qed.

Lemma QSlider_setValue_blocked (s : QSlider.t) (v : Z) :
  snd (QSlider.setValue (QSlider.blockSignals true s) v) = None.
Proof.
  unfold QSlider.setValue.
  match goal with |- context [if ?c then _ else _] => destruct c end; reflexivity.
Qed.

Lemma valueChanged_emit_same (p : NumParameter.t) :
  NumParameter._type (NumParameter.valueChanged_emit p) = NumParameter._type p
  /\ NumParameter.field (NumParameter.valueChanged_emit p) = NumParameter.field p
  /\ NumParameter.slider (NumParameter.valueChanged_emit p) = NumParameter.slider p
  /\ NumParameter._dvalue (NumParameter.valueChanged_emit p) = NumParameter._dvalue p
  /\ NumParameter.signalsBlocked (NumParameter.valueChanged_emit p)
     = NumParameter.signalsBlocked p
  /\ NumParameter.connected (NumParameter.valueChanged_emit p)
     = NumParameter.connected p.
Proof.
  unfold NumParameter.valueChanged_emit.
  destruct (NumParameter.signalsBlocked p) eqn:E; simpl; auto 10.
Qed.

Lemma _updateValueFromField_same (p : NumParameter.t) (v : pynum) :
  NumParameter._type (NumParameter._updateValueFromField p v) = NumParameter._type p
  /\ NumParameter.field (NumParameter._updateValueFromField p v) = NumParameter.field p
  /\ NumParameter._dvalue (NumParameter._updateValueFromField p v)
     = NumParameter._dvalue p
  /\ NumParameter.signalsBlocked (NumParameter._updateValueFromField p v)
     = NumParameter.signalsBlocked p
  /\ NumParameter.connected (NumParameter._updateValueFromField p v)
     = NumParameter.connected p.
Proof.
  unfold NumParameter._updateValueFromField.
  match goal with |- context [NumParameter.valueChanged_emit ?q] =>
    destruct (valueChanged_emit_same q) as (-> & -> & _ & -> & -> & ->) end.
  simpl. auto.
Qed.

Lemma _updateValueFromSlider_same (p : NumParameter.t) (v : Z) :
  NumParameter._type (NumParameter._updateValueFromSlider p v) = NumParameter._type p
  /\ NumParameter.slider (NumParameter._updateValueFromSlider p v)
     = NumParameter.slider p
  /\ NumParameter._dvalue (NumParameter._updateValueFromSlider p v)
     = NumParameter._dvalue p
  /\ NumParameter.signalsBlocked (NumParameter._updateValueFromSlider p v)
     = NumParameter.signalsBlocked p
  /\ NumParameter.connected (NumParameter._updateValueFromSlider p v)
     = NumParameter.connected p.
Proof.
  unfold NumParameter._updateValueFromSlider.
  match goal with |- context [NumParameter.valueChanged_emit ?q] =>
    destruct (valueChanged_emit_same q) as (-> & _ & -> & -> & -> & ->) end.
  simpl. auto.
Qed.

Lemma _updateValueFromSlider_ok (p : NumParameter.t) (v : Z) :
  widgets_ok p -> widgets_ok (NumParameter._updateValueFromSlider p v).
Proof.
  intros [Hk Hok]. unfold widgets_ok.
  destruct (_updateValueFromSlider_same p v) as (-> & _).
  unfold NumParameter._updateValueFromSlider.
  match goal with |- context [NumParameter.valueChanged_emit ?q] =>
    destruct (valueChanged_emit_same q) as (_ & -> & _) end.
  simpl. split.
  - now rewrite Field_blockSignals_kind, Field_setValue_kind, Field_blockSignals_kind.
  - apply Field_blockSignals_ok, Field_setValue_ok, Field_blockSignals_ok, Hok.
Qed.

Lemma field_valueChanged_same (p : NumParameter.t) (e : option pynum) :
  NumParameter._type (NumParameter.field_valueChanged p e) = NumParameter._type p
  /\ NumParameter.field (NumParameter.field_valueChanged p e) = NumParameter.field p
  /\ NumParameter._dvalue (NumParameter.field_valueChanged p e)
     = NumParameter._dvalue p
  /\ NumParameter.signalsBlocked (NumParameter.field_valueChanged p e)
     = NumParameter.signalsBlocked p
  /\ NumParameter.connected (NumParameter.field_valueChanged p e)
     = NumParameter.connected p.
Proof.
  unfold NumParameter.field_valueChanged.
  destruct e as [v|]; [destruct (NumParameter.connected p) eqn:E|]; auto.
  destruct (_updateValueFromField_same p v) as (H1 & H2 & H3 & H4 & H5).
  repeat split; congruence.
Qed.

Lemma slider_valueChanged_same (p : NumParameter.t) (e : option Z) :
  NumParameter._type (NumParameter.slider_valueChanged p e) = NumParameter._type p
  /\ NumParameter._dvalue (NumParameter.slider_valueChanged p e)
     = NumParameter._dvalue p
  /\ NumParameter.signalsBlocked (NumParameter.slider_valueChanged p e)
     = NumParameter.signalsBlocked p
  /\ NumParameter.connected (NumParameter.slider_valueChanged p e)
     = NumParameter.connected p.
Proof.
  unfold NumParameter.slider_valueChanged.
  destruct e as [v|]; [destruct (NumParameter.connected p) eqn:E|]; auto.
  destruct (_updateValueFromSlider_same p v) as (H1 & _ & H2 & H3 & H4).
  repeat split; congruence.
Qed.

Lemma slider_valueChanged_ok (p : NumParameter.t) (e : option Z) :
  widgets_ok p -> widgets_ok (NumParameter.slider_valueChanged p e).
Proof.
  intros H. unfold NumParameter.slider_valueChanged.
  destruct e as [v|]; [destruct (NumParameter.connected p)|]; auto.
  now apply _updateValueFromSlider_ok.
Qed.

Lemma field_valueChanged_ok (p : NumParameter.t) (e : option pynum) :
  widgets_ok p -> widgets_ok (NumParameter.field_valueChanged p e).
Proof.
  intros H. unfold widgets_ok.
  destruct (field_valueChanged_same p e) as (-> & -> & _). exact H.
Qed.

(** [setValue] writes both widgets with their signals blocked, so no slot
    runs, and emits once at the end. *)
Lemma setValue_unfold (p : NumParameter.t) (v : pynum) (d : bool) :
  NumParameter.setValue p v d =
  NumParameter.valueChanged_emit
    (NumParameter.mk (NumParameter._type p)
       (Field.blockSignals false
          (fst (Field.setValue (Field.blockSignals true (NumParameter.field p)) v)))
       (QSlider.blockSignals false
          (fst (QSlider.setValue (QSlider.blockSignals true (NumParameter.slider p))
                  (slider_units (NumParameter._type p) v))))
       (if d then v else NumParameter._dvalue p)
       (NumParameter.signalsBlocked p) (NumParameter.connected p)
       (NumParameter.emitted p)).
Proof.
  unfold NumParameter.setValue.
  set (p1 := if d then _ else _).
  assert (Hf : NumParameter.field p1
               = Field.blockSignals true (NumParameter.field p))
    by (subst p1; destruct d; reflexivity).
  assert (Hs : NumParameter.slider p1
               = QSlider.blockSignals true (NumParameter.slider p))
    by (subst p1; destruct d; reflexivity).
  assert (Ht : NumParameter._type p1 = NumParameter._type p)
    by (subst p1; destruct d; reflexivity).
  assert (Hd : NumParameter._dvalue p1 = if d then v else NumParameter._dvalue p)
    by (subst p1; destruct d; reflexivity).
  assert (Hb : NumParameter.signalsBlocked p1 = NumParameter.signalsBlocked p)
    by (subst p1; destruct d; reflexivity).
  assert (Hc : NumParameter.connected p1 = NumParameter.connected p)
    by (subst p1; destruct d; reflexivity).
  assert (He : NumParameter.emitted p1 = NumParameter.emitted p)
    by (subst p1; destruct d; reflexivity).
  clearbody p1. rewrite Hf.
  pose proof (Field_setValue_blocked (NumParameter.field p) v) as E1.
  destruct (Field.setValue (Field.blockSignals true (NumParameter.field p)) v)
    as [f e]. simpl in E1. subst e. simpl NumParameter.field_valueChanged.
  change (NumParameter._type (NumParameter.with_field f p1))
    with (NumParameter._type p1).
  change (NumParameter.slider (NumParameter.with_field f p1))
    with (NumParameter.slider p1).
  rewrite Hs, Ht.
  fold (slider_units (NumParameter._type p) v).
  pose proof (QSlider_setValue_blocked (NumParameter.slider p)
                (slider_units (NumParameter._type p) v)) as E2.
  assert (Hu : (match NumParameter._type p with
                | TInt => QSlider.setValue
                            (QSlider.blockSignals true (NumParameter.slider p)) (as_int v)
                | TFloat => QSlider.setValue
                              (QSlider.blockSignals true (NumParameter.slider p))
                              (as_int (py_mul100 v))
                end)
               = QSlider.setValue (QSlider.blockSignals true (NumParameter.slider p))
                   (slider_units (NumParameter._type p) v))
    by (unfold slider_units; destruct (NumParameter._type p); reflexivity).
  rewrite Hu.
  destruct (QSlider.setValue (QSlider.blockSignals true (NumParameter.slider p))
              (slider_units (NumParameter._type p) v)) as [s e].
  simpl in E2. subst e. simpl.
  unfold NumParameter.with_slider, NumParameter.with_field. simpl.
  rewrite Ht, Hd, Hb, Hc, He. reflexivity.
Qed.

Lemma setValue_inv (p : NumParameter.t) (v : pynum) (d : bool) :
  NumParameter_inv p -> NumParameter_inv (NumParameter.setValue p v d).
Proof.
  intros (Hb & Hk & Hok). rewrite setValue_unfold.
  unfold NumParameter_inv, widgets_ok.
  match goal with |- context [NumParameter.valueChanged_emit ?q] =>
    destruct (valueChanged_emit_same q) as (-> & -> & _ & _ & -> & _) end.
  simpl. repeat split.
  - exact Hb.
  - now rewrite Field_blockSignals_kind, Field_setValue_kind, Field_blockSignals_kind.
  - apply Field_blockSignals_ok, Field_setValue_ok, Field_blockSignals_ok, Hok.
Qed.

Lemma setRange_inv (p : NumParameter.t) (lo hi : pynum) :
  widgets_ok p -> NumParameter_inv (NumParameter.setRange p lo hi).
Proof.
  intros [Hk Hok]. unfold NumParameter.setRange.
  pose proof (Field_setRange_ok
                (NumParameter.field (NumParameter.blockSignals true p)) lo hi Hok)
    as Hfok.
  pose proof (Field_setRange_kind
                (NumParameter.field (NumParameter.blockSignals true p)) lo hi)
    as Hfk.
  destruct (Field.setRange (NumParameter.field (NumParameter.blockSignals true p))
              lo hi) as [f e].
  simpl fst in *.
  set (p2 := NumParameter.field_valueChanged _ e).
  assert (H2 : widgets_ok p2).
  { apply field_valueChanged_ok.
    split; simpl; [simpl in Hfk; congruence|exact Hfok]. }
  clearbody p2.
  match goal with |- context [let (_, _) := ?x in _] => destruct x as [s e'] end.
  set (p3 := NumParameter.slider_valueChanged _ e').
  assert (H3 : widgets_ok p3).
  { apply slider_valueChanged_ok. exact H2. }
  clearbody p3. split; [reflexivity|exact H3].
Qed.

Lemma setSingleStep_inv (p : NumParameter.t) (s : pynum) :
  widgets_ok p -> NumParameter_inv (NumParameter.setSingleStep p s).
Proof.
  intros [Hk Hok]. unfold NumParameter.setSingleStep.
  split; [reflexivity|]. split; simpl.
  - now rewrite Field_setSingleStep_kind.
  - now apply Field_setSingleStep_ok.
Qed.

Lemma fieldEdited_inv (p : NumParameter.t) (v : pynum) :
  NumParameter_inv p -> NumParameter_inv (NumParameter.fieldEdited p v).
Proof.
  intros (Hb & Hk & Hok). unfold NumParameter.fieldEdited.
  pose proof (Field_setValue_ok (NumParameter.field p) v Hok) as Hfok.
  pose proof (Field_setValue_kind (NumParameter.field p) v) as Hfk.
  destruct (Field.setValue (NumParameter.field p) v) as [f e]. simpl fst in *.
  split.
  - destruct (field_valueChanged_same (NumParameter.with_field f p) e)
      as (_ & _ & _ & -> & _). exact Hb.
  - apply field_valueChanged_ok. split; simpl; [congruence|exact Hfok].
Qed.

Lemma sliderMoved_inv (p : NumParameter.t) (v : Z) :
  NumParameter_inv p -> NumParameter_inv (NumParameter.sliderMoved p v).
Proof.
  intros (Hb & Hw). unfold NumParameter.sliderMoved.
  destruct (QSlider.setValue (NumParameter.slider p) v) as [s e].
  split.
  - destruct (slider_valueChanged_same (NumParameter.with_slider s p) e)
      as (_ & _ & -> & _). exact Hb.
  - apply slider_valueChanged_ok. exact Hw.
Qed.

Lemma step_inv (p : NumParameter.t) (o : NumParameter.op) :
  NumParameter_inv p -> NumParameter_inv (NumParameter.step p o).
Proof.
  intros H. destruct o; simpl.
  - now apply setValue_inv.
  - apply setRange_inv, H.
  - apply setSingleStep_inv, H.
  - exact H.
  - now apply setValue_inv.
  - now apply fieldEdited_inv.
  - now apply sliderMoved_inv.
Qed.

Lemma run_inv (ops : list NumParameter.op) (p : NumParameter.t) :
  NumParameter_inv p -> NumParameter_inv (NumParameter.run p ops).
Proof.
  revert p. induction ops as [|o ops IH]; intros p H; simpl.
  - exact H.
  - apply IH, step_inv, H.
Qed.

Lemma init_inv (value : pynum) (value_range : option (pynum * pynum))
    (single_step : option pynum) :
  NumParameter_inv (NumParameter.__init__ value value_range single_step).
Proof.
  unfold NumParameter.__init__.
  set (p0 := NumParameter.mk _ _ _ _ _ _ _).
  assert (H0 : widgets_ok p0).
  { subst p0. split; simpl.
    - destruct (type_of value); reflexivity.
    - destruct (type_of value); simpl.
      + unfold QSpinBox_ok. simpl. lia.
      + unfold QDoubleSpinBox_ok. simpl.
        repeat split; try reflexivity; unfold Qle; simpl; lia. }
  clearbody p0.
  set (p1 := match value_range with Some _ => _ | None => _ end).
  assert (H1 : NumParameter_inv p1).
  { subst p1. destruct value_range as [[lo hi]|]; [|destruct (type_of value)];
      apply setRange_inv, H0. }
  clearbody p1.
  set (p2 := match single_step with Some _ => _ | None => _ end).
  assert (H2 : NumParameter_inv p2).
  { subst p2. destruct single_step as [s|]; [|exact H1].
    destruct (py_truthy s); [|exact H1]. apply setSingleStep_inv, H1. }
  clearbody p2.
  apply (setValue_inv p2 value false) in H2. exact H2.
Qed.

(** Every parameter the program can hold satisfies the invariant. *)
Lemma reachable_inv (value : pynum) (value_range : option (pynum * pynum))
    (single_step : option pynum) (ops : list NumParameter.op) :
  NumParameter_inv
    (NumParameter.run (NumParameter.__init__ value value_range single_step) ops).
Proof. apply run_inv, init_inv. Qed.

End NumParameterInvariant.

(** ** QColor: a colour's name reads back as the colour *)

Section Colors.

Variable other_format : string -> option (byte * byte * byte).

Lemma parse2_hex2 (b : byte) :
  QColor.parse2 (QColor.hex_digit (Byte.to_N b / 16))
    (QColor.hex_digit (Byte.to_N b mod 16)) = Some b.
Proof. destruct b; reflexivity. Qed.

Lemma fromString_name (c : QColor.t) :
  QColor.fromString other_format (QColor.name c)
  = QColor.rgb (QColor.red c) (QColor.green c) (QColor.blue c).
Proof.
  unfold QColor.name, QColor.hex2. simpl.
  now rewrite !parse2_hex2.
Qed.

Lemma name_fromString_name (c : QColor.t) :
  QColor.name (QColor.fromString other_format (QColor.name c)) = QColor.name c.
Proof. rewrite fromString_name. reflexivity. Qed.

Lemma isValid_fromString_name (c : QColor.t) :
  QColor.isValid (QColor.fromString other_format (QColor.name c)) = true.
Proof. rewrite fromString_name. reflexivity. Qed.

End Colors.

(** ** NumParameter: value, range and notifications *)

Section NumParameterClaims.

Variables (value0 : pynum) (value_range : option (pynum * pynum))
  (single_step : option pynum) (ops : list NumParameter.op).

(** A parameter as the program can hold it: built by the constructor and
    then used through any operations. *)
Let p : NumParameter.t :=
  NumParameter.run (NumParameter.__init__ value0 value_range single_step) ops.

Lemma value_is_field_value (q : NumParameter.t) :
  widgets_ok q -> NumParameter.value q = Field.value (NumParameter.field q).
Proof.
  intros [Hk _]. unfold NumParameter.value. rewrite <- Hk.
  destruct (NumParameter.field q); reflexivity.
Qed.

Lemma setValue_field (q : NumParameter.t) (v : pynum) (d : bool) :
  NumParameter.field (NumParameter.setValue q v d)
  = Field.blockSignals false
      (fst (Field.setValue (Field.blockSignals true (NumParameter.field q)) v)).
Proof.
  rewrite setValue_unfold.
  match goal with |- context [NumParameter.valueChanged_emit ?x] =>
    destruct (valueChanged_emit_same x) as (_ & -> & _) end.
  reflexivity.
Qed.

Lemma setValue_emitted (q : NumParameter.t) (v : pynum) (d : bool) :
  NumParameter.signalsBlocked q = false ->
  NumParameter.emitted (NumParameter.setValue q v d) = S (NumParameter.emitted q).
Proof.
  intros H. rewrite setValue_unfold. unfold NumParameter.valueChanged_emit.
  simpl. rewrite H. reflexivity.
Qed.

(** [setValue] on a numeric parameter notifies exactly once, whatever the
    value. *)
Lemma NumParameter_setValue_emits_once (v : pynum) (d : bool) :
  NumParameter.emitted (NumParameter.setValue p v d) = S (NumParameter.emitted p).
Proof. apply setValue_emitted. apply (reachable_inv value0 value_range single_step ops). Qed.

(** What [value()] is after [setValue], by the type of the parameter. *)
Lemma setValue_value_int (q : NumParameter.t) (w : QSpinBox.t) (v : pynum) (d : bool) :
  NumParameter_inv q -> NumParameter.field q = Field.Spin w ->
  NumParameter.value (NumParameter.setValue q v d)
  = PyInt (QSpinBox.bound w (as_int v)).
Proof.
  intros Hq Hf.
  rewrite value_is_field_value by (apply (setValue_inv q v d Hq)).
  rewrite setValue_field, Hf. reflexivity.
Qed.

Lemma setValue_value_float (q : NumParameter.t) (w : QDoubleSpinBox.t) (v : pynum)
    (d : bool) :
  NumParameter_inv q -> NumParameter.field q = Field.Double w ->
  NumParameter.value (NumParameter.setValue q v d)
  = PyFloat (QDoubleSpinBox.bound w (round2 (as_double v))).
Proof.
  intros Hq Hf.
  rewrite value_is_field_value by (apply (setValue_inv q v d Hq)).
  rewrite setValue_field, Hf. reflexivity.
Qed.

(** C6.  After [setValue(v)] with [v] in the range of the parameter,
    [value()] is [v]: the integer itself for an [int] parameter, [v] rounded
    to two decimals (so at most 0.005 away) for a [float] parameter.
    [value()] has the type of the parameter, and a [float] value has two
    decimals. *)
Theorem setValue_then_value (v : pynum) (d : bool) :
  py_le (NumParameter.minimum p) v ->
  py_le v (NumParameter.maximum p) ->
  match NumParameter._type p with
  | TInt =>
      forall z, v = PyInt z ->
        NumParameter.value (NumParameter.setValue p v d) = PyInt z
  | TFloat =>
      NumParameter.value (NumParameter.setValue p v d)
      = PyFloat (round2 (as_double v))
      /\ (Qabs (round2 (as_double v) - as_double v) <= 1 # 200)%Q
  end
  /\ type_of (NumParameter.value p) = NumParameter._type p
  /\ (forall q, NumParameter.value p = PyFloat q -> round2 q = q).
Proof.
  pose proof (reachable_inv value0 value_range single_step ops) as Hinv.
  fold p in Hinv. intros Hlo Hhi.
  destruct Hinv as (Hb & Hk & Hok).
  assert (Hinv : NumParameter_inv p) by (split; [|split]; assumption).
  unfold NumParameter.minimum, NumParameter.maximum in *.
  rewrite (value_is_field_value p) by (split; assumption).
  rewrite <- Hk.
  destruct (NumParameter.field p) as [w | w] eqn:Hf; simpl in *.
  - repeat split; try discriminate.
    intros z ->. rewrite (setValue_value_int p w); auto.
    unfold py_le in *. simpl in *. rewrite <- Zle_Qle in *.
    now rewrite QSpinBox_bound_id.
  - destruct Hok as (Hr & Hmin & Hmax & Hval).
    repeat split.
    + rewrite (setValue_value_float p w); auto.
      f_equal. apply QDoubleSpinBox_bound_id.
      unfold py_le in *. simpl in *.
      rewrite <- Hmin, <- Hmax. split; now apply round2_le.
    + apply round2_near.
    + intros q [= <-]. exact Hval.
Qed.

(** [value()] lies in the range the field has at that moment. *)
Lemma value_in_field_range (q : NumParameter.t) :
  NumParameter_inv q ->
  py_le (NumParameter.minimum q) (NumParameter.value q)
  /\ py_le (NumParameter.value q) (NumParameter.maximum q).
Proof.
  intros (Hb & Hk & Hok).
  unfold NumParameter.minimum, NumParameter.maximum.
  rewrite value_is_field_value by (split; assumption).
  unfold py_le.
  destruct (NumParameter.field q) as [w | w]; simpl in *.
  - unfold QSpinBox_ok in Hok. rewrite <- !Zle_Qle. lia.
  - destruct Hok as (Hr & _). exact Hr.
Qed.

End NumParameterClaims.

(** ** NumParameter: the declared range *)

Section NumParameterRange.

Lemma Field_setValue_range (f : Field.t) (v : pynum) :
  Field.minimum (fst (Field.setValue f v)) = Field.minimum f
  /\ Field.maximum (fst (Field.setValue f v)) = Field.maximum f.
Proof. destruct f; simpl; auto. Qed.

Lemma Field_blockSignals_range (b : bool) (f : Field.t) :
  Field.minimum (Field.blockSignals b f) = Field.minimum f
  /\ Field.maximum (Field.blockSignals b f) = Field.maximum f.
Proof. destruct f; simpl; auto. Qed.







End NumParameterRange.



Lemma setValue_then_value_witness :
  let p := NumParameter.__init__ (PyInt 1080) (Some (PyInt 1, PyInt 4096))
             (Some (PyInt 128)) in
  py_le (NumParameter.minimum p) (PyInt 720)
  /\ py_le (PyInt 720) (NumParameter.maximum p)
  /\ NumParameter.value (NumParameter.setValue p (PyInt 720) false) = PyInt 720.
Proof.
  assert (H1 : py_le (NumParameter.minimum
                        (NumParameter.__init__ (PyInt 1080)
                           (Some (PyInt 1, PyInt 4096)) (Some (PyInt 128))))
                 (PyInt 720)) by (unfold py_le, Qle; simpl; lia).
  assert (H2 : py_le (PyInt 720)
                 (NumParameter.maximum
                    (NumParameter.__init__ (PyInt 1080)
                       (Some (PyInt 1, PyInt 4096)) (Some (PyInt 128)))))
    by (unfold py_le, Qle; simpl; lia).
  intros p. split; [exact H1|]. split; [exact H2|].
  exact (proj1 (setValue_then_value (PyInt 1080) (Some (PyInt 1, PyInt 4096))
                  (Some (PyInt 128)) [] (PyInt 720) false H1 H2) 720 eq_refl).
Defined.

(** ** ColorParameter *)

Section ColorParameterFacts.

Variable other_format : string -> option (byte * byte * byte).

Abbreviation QColor_of := (ColorParameter.QColor_of other_format).
Abbreviation setValue := (ColorParameter.setValue other_format).

Lemma setText_text (w : QLineEdit.t) (s : string) :
  QLineEdit.text (fst (QLineEdit.setText w s)) = s.
Proof.
  unfold QLineEdit.setText. destruct (String.eqb (QLineEdit.text w) s) eqn:E.
  - now apply String.eqb_eq in E.
  - reflexivity.
Qed.

(** An unreadable colour leaves the parameter as it is. *)
Lemma setValue_invalid (p : ColorParameter.t) (v : pycolor) (d : bool) :
  QColor.isValid (QColor_of v) = false -> setValue p v d = p.
Proof. intros H. unfold ColorParameter.setValue. now rewrite H. Qed.

(** What [setValue] does with a readable colour: the text, the button, the
    default, and the notifications, one from the field if its text changed
    and one from [setValue] itself. *)
Lemma setValue_valid (p : ColorParameter.t) (v : pycolor) (d : bool) :
  QColor.isValid (QColor_of v) = true ->
  let name := QColor.name (QColor_of v) in
  setValue p v d
  = ColorParameter.mk
      (fst (QLineEdit.setText (ColorParameter.field p) name))
      (Some (QColor.toTuple3 (QColor_of v)))
      (if d then Str name else ColorParameter._dvalue p)
      (ColorParameter.connected p)
      (ColorParameter.emitted p
       ++ match snd (QLineEdit.setText (ColorParameter.field p) name) with
          | Some s => if ColorParameter.connected p then [s] else []
          | None => []
          end
       ++ [name]).
Proof.
  intros H name. unfold ColorParameter.setValue. rewrite H. simpl negb. cbv iota.
  fold name.
  set (p1 := if d then _ else p).
  assert (H1 : p1 = ColorParameter.with_dvalue
                      (if d then Str name else ColorParameter._dvalue p) p).
  { subst p1. destruct d.
    - unfold ColorParameter.setDefaultValue.
      change (QColor_of (Str name)) with (QColor.fromString other_format name).
      unfold name. rewrite isValid_fromString_name, name_fromString_name.
      reflexivity.
    - destruct p; reflexivity. }
  rewrite H1. clear H1 p1. simpl ColorParameter.field.
  destruct (QLineEdit.setText (ColorParameter.field p) name) as [f [s|]]; simpl.
  - destruct (ColorParameter.connected p) eqn:E; simpl.
    + unfold ColorParameter.valueChanged_emit, ColorParameter._setButtonColor.
      simpl. rewrite E, <- app_assoc. reflexivity.
    + unfold ColorParameter.valueChanged_emit, ColorParameter._setButtonColor.
      simpl. rewrite E. reflexivity.
  - reflexivity.
Qed.

Lemma setValue_connected (p : ColorParameter.t) (v : pycolor) (d : bool) :
  ColorParameter.connected (setValue p v d) = ColorParameter.connected p.
Proof.
  destruct (QColor.isValid (QColor_of v)) eqn:H.
  - now rewrite setValue_valid.
  - now rewrite setValue_invalid.
Qed.

Lemma setValue_dvalue (p : ColorParameter.t) (v : pycolor) (d : bool) :
  ColorParameter._dvalue (setValue p v d)
  = if d && QColor.isValid (QColor_of v)
    then Str (QColor.name (QColor_of v)) else ColorParameter._dvalue p.
Proof.
  destruct (QColor.isValid (QColor_of v)) eqn:H.
  - rewrite setValue_valid by exact H. simpl. now rewrite andb_true_r.
  - rewrite setValue_invalid by exact H. now rewrite andb_false_r.
Qed.

Lemma setValue_value (p : ColorParameter.t) (v : pycolor) (d : bool) :
  QColor.isValid (QColor_of v) = true ->
  ColorParameter.value (setValue p v d) = QColor.name (QColor_of v).
Proof.
  intros H. rewrite setValue_valid by exact H.
  unfold ColorParameter.value. simpl. apply setText_text.
Qed.

Lemma textEdited_same (p : ColorParameter.t) (s : string) :
  ColorParameter.connected (ColorParameter.textEdited p s)
  = ColorParameter.connected p
  /\ ColorParameter._dvalue (ColorParameter.textEdited p s)
     = ColorParameter._dvalue p.
Proof.
  unfold ColorParameter.textEdited.
  destruct (QLineEdit.setText (ColorParameter.field p) s) as [f [e|]]; simpl; auto.
  destruct (ColorParameter.connected p) eqn:E; simpl; auto.
Qed.

Lemma Color_step_connected (p : ColorParameter.t) (o : ColorParameter.op) :
  ColorParameter.connected (ColorParameter.step other_format p o)
  = ColorParameter.connected p.
Proof.
  destruct o; simpl; try apply setValue_connected.
  - unfold ColorParameter.setDefaultValue.
    destruct (negb (QColor.isValid (QColor_of v))); reflexivity.
  - apply textEdited_same.
Qed.

Lemma Color_run_connected (ops : list ColorParameter.op) (p : ColorParameter.t) :
  ColorParameter.connected (ColorParameter.run other_format p ops)
  = ColorParameter.connected p.
Proof.
  revert p. induction ops as [|o ops IH]; intros p; [reflexivity|].
  change (ColorParameter.run other_format p (o :: ops))
    with (ColorParameter.run other_format (ColorParameter.step other_format p o) ops).
  rewrite IH. apply Color_step_connected.
Qed.

Lemma Color_init_connected (c : pycolor) :
  ColorParameter.connected (ColorParameter.__init__ other_format c) = true.
Proof. reflexivity. Qed.

(** The default follows the readable colours passed with
    [use_as_default=True]. *)
Lemma Color_run_dvalue (es : list ColorEdit) (p : ColorParameter.t) :
  ColorParameter._dvalue
    (ColorParameter.run other_format p (map ColorEdit_op es))
  = last_default_color other_format (ColorParameter._dvalue p) es.
Proof.
  revert p. induction es as [|e es IH]; intros p; [reflexivity|].
  change (ColorParameter.run other_format p (map ColorEdit_op (e :: es)))
    with (ColorParameter.run other_format
            (ColorParameter.step other_format p (ColorEdit_op e))
            (map ColorEdit_op es)).
  rewrite IH. clear IH.
  destruct e as [v d | c | s |]; simpl.
  - rewrite setValue_dvalue. destruct d; simpl; [|reflexivity].
    destruct (QColor.isValid (QColor_of v)); reflexivity.
  - rewrite setValue_dvalue. reflexivity.
  - destruct (textEdited_same p s) as [_ ->]. reflexivity.
  - unfold ColorParameter.resetToDefault. rewrite setValue_dvalue. reflexivity.
Qed.


End ColorParameterFacts.

(** ** Defaults *)

Section Defaults.





Lemma as_int_ge (m : Z) (v : pynum) :
  (inject_Z m <= as_double v)%Q -> m <= as_int v.
Proof.
  destruct v as [z | q]; simpl; intros H.
  - now rewrite Zle_Qle.
  - unfold Qtruncate. destruct (Qle_bool 0 q).
    + rewrite <- (Qfloor_Z m). now apply Qfloor_resp_le.
    + rewrite <- (Qceiling_Z m). now apply Qceiling_resp_le.
Qed.

Lemma as_int_le (m : Z) (v : pynum) :
  (as_double v <= inject_Z m)%Q -> as_int v <= m.
Proof.
  destruct v as [z | q]; simpl; intros H.
  - now rewrite Zle_Qle.
  - unfold Qtruncate. destruct (Qle_bool 0 q).
    + rewrite <- (Qfloor_Z m). now apply Qfloor_resp_le.
    + rewrite <- (Qceiling_Z m). now apply Qceiling_resp_le.
Qed.

(** [setValue] with a value of the range: the value itself, as an integer
    for an [int] parameter, rounded for a [float] parameter. *)
Lemma setValue_in_range (q : NumParameter.t) (v : pynum) (d : bool) :
  NumParameter_inv q ->
  py_le (NumParameter.minimum q) v -> py_le v (NumParameter.maximum q) ->
  NumParameter.value (NumParameter.setValue q v d)
  = match NumParameter._type q with
    | TInt => PyInt (as_int v)
    | TFloat => PyFloat (round2 (as_double v))
    end.
Proof.
  intros Hinv. pose proof Hinv as (Hb & Hk & Hok).
  unfold NumParameter.minimum, NumParameter.maximum, py_le.
  rewrite <- Hk. intros Hlo Hhi.
  destruct (NumParameter.field q) as [w | w] eqn:Hf; simpl in *.
  - rewrite (setValue_value_int q w); auto.
    f_equal. apply QSpinBox_bound_id.
    split; [now apply as_int_ge|now apply as_int_le].
  - rewrite (setValue_value_float q w); auto.
    destruct Hok as (Hr & Hmin & Hmax & Hval).
    f_equal. apply QDoubleSpinBox_bound_id.
    rewrite <- Hmin, <- Hmax. split; now apply round2_le.
Qed.



End Defaults.

(** ** Notifications of [setValue] *)

(** A colour parameter the program can hold notifies once per [setValue]
    when the text of the field stays the same, and twice when it changes:
    the field's [textChanged] is connected to [valueChanged.emit] and is not
    blocked while [setValue] writes the text. *)
Lemma ColorParameter_setValue_emissions
    (other_format : string -> option (byte * byte * byte))
    (color0 : pycolor) (ops : list ColorParameter.op) (v : pycolor) (d : bool) :
  let p := ColorParameter.run other_format
             (ColorParameter.__init__ other_format color0) ops in
  let name := QColor.name (ColorParameter.QColor_of other_format v) in
  QColor.isValid (ColorParameter.QColor_of other_format v) = true ->
  QLineEdit.signalsBlocked (ColorParameter.field p) = false ->
  ColorParameter.emitted (ColorParameter.setValue other_format p v d)
  = ColorParameter.emitted p
    ++ (if String.eqb (ColorParameter.value p) name then [name] else [name; name]).
Proof.
  intros p name Hv Hb.
  rewrite setValue_valid by exact Hv. fold name. simpl.
  assert (Hc : ColorParameter.connected p = true)
    by (unfold p; rewrite Color_run_connected; reflexivity).
  rewrite Hc. unfold QLineEdit.setText, ColorParameter.value.
  destruct (String.eqb (QLineEdit.text (ColorParameter.field p)) name);
    simpl; [reflexivity|].
  rewrite Hb. reflexivity.
Qed.

(** C1.  [setValue] with a new colour notifies twice: the parameter built
    with [#ffffff] and set to [#000000] delivers [valueChanged] two times
    for the one call. *)
Theorem ColorParameter_setValue_notifies_twice
    (other_format : string -> option (byte * byte * byte)) :
  let p := ColorParameter.__init__ other_format
             (Color (QColor.fromString other_format "#ffffff")) in
  ColorParameter.value p = "#ffffff"%string
  /\ ColorParameter.emitted
       (ColorParameter.setValue other_format p (Str "#000000") false)
     = ColorParameter.emitted p ++ ["#000000"%string; "#000000"%string].
Proof. split; reflexivity. Qed.

(** ** Values outside the domain *)




(** ** Reset *)



(** ** The preview pipeline *)

Section Pipeline.

Variable other_format : string -> option (byte * byte * byte).
Variable wallpaper_generate : Request -> generated.
Variable QSvgRenderer_isValid : string -> bool.

Abbreviation generateImage :=
  (MainWindow.generateImage wallpaper_generate QSvgRenderer_isValid).
Abbreviation updateImage :=
  (MainWindow.updateImage wallpaper_generate QSvgRenderer_isValid).
Abbreviation updateImage_times :=
  (MainWindow.updateImage_times wallpaper_generate QSvgRenderer_isValid).
Abbreviation handle :=
  (MainWindow.handle other_format wallpaper_generate QSvgRenderer_isValid).
Abbreviation run :=
  (MainWindow.run other_format wallpaper_generate QSvgRenderer_isValid).
Abbreviation inv := (cache_inv wallpaper_generate QSvgRenderer_isValid).

(** The three ways [generateImage] ends. *)
Lemma generateImage_cases (w : MainWindow.t) :
  let r := MainWindow.request w in
  let w0 := MainWindow.with_call r w in
  (exists msg, wallpaper_generate r = GenerateRaised msg
               /\ generateImage w = (w0, Raise msg))
  \/ (exists svg, wallpaper_generate r = Markup svg
                  /\ QSvgRenderer_isValid svg = false
                  /\ generateImage w
                     = (MainWindow.with_svg_data None w0,
                        Raise "Generated SVG is not valid"))
  \/ (exists svg, wallpaper_generate r = Markup svg
                  /\ QSvgRenderer_isValid svg = true
                  /\ generateImage w
                     = (let image := mkQImage (as_int (req_width r))
                                       (as_int (req_height r)) svg in
                        (MainWindow.with_image (Some image)
                           (MainWindow.with_svg_data (Some svg) w0),
                         Return image))).
Proof.
  intros r w0. unfold MainWindow.generateImage. fold r. fold w0.
  destruct (wallpaper_generate r) as [svg | msg] eqn:E.
  - destruct (QSvgRenderer_isValid svg) eqn:V; simpl.
    + right. right. exists svg. auto.
    + right. left. exists svg. auto.
  - left. exists msg. auto.
Qed.

(** [generateImage] leaves the parameters, the view and the files alone. *)
Lemma generateImage_frame (w : MainWindow.t) :
  let w' := fst (generateImage w) in
  MainWindow.nums w' = MainWindow.nums w
  /\ MainWindow.colors w' = MainWindow.colors w
  /\ MainWindow.wire_style_combo w' = MainWindow.wire_style_combo w
  /\ MainWindow.view w' = MainWindow.view w
  /\ MainWindow.written w' = MainWindow.written w
  /\ MainWindow.generate_calls w'
     = MainWindow.generate_calls w ++ [MainWindow.request w].
Proof.
  destruct (generateImage_cases w)
    as [(msg & _ & ->) | [(svg & _ & _ & ->) | (svg & _ & _ & ->)]];
    simpl; auto 10.
Qed.

Lemma generateImage_request (w : MainWindow.t) :
  MainWindow.request (fst (generateImage w)) = MainWindow.request w.
Proof.
  destruct (generateImage_frame w) as (Hn & Hc & Hw & _).
  unfold MainWindow.request. now rewrite Hn, Hc, Hw.
Qed.

Lemma updateImage_fst (w : MainWindow.t) :
  let w' := fst (generateImage w) in
  fst (updateImage w)
  = match snd (generateImage w) with
    | Return image =>
        MainWindow.with_view
          (ImageView.setImage (MainWindow.view w') (Some image)) w'
    | Raise _ => w'
    end.
Proof.
  unfold MainWindow.updateImage.
  destruct (generateImage w) as [w' [image | msg]]; reflexivity.
Qed.

Lemma cache_inv_frame (w w' : MainWindow.t) :
  MainWindow.__svg_data w' = MainWindow.__svg_data w ->
  MainWindow.__image w' = MainWindow.__image w ->
  (forall r, In r (MainWindow.generate_calls w) ->
             In r (MainWindow.generate_calls w')) ->
  inv w -> inv w'.
Proof.
  intros Hs Hi Hc H svg E. rewrite Hs in E.
  destruct (H svg E) as (V & r & Hin & Hg & Him).
  split; [exact V|]. exists r. rewrite Hi. auto.
Qed.

Lemma generateImage_inv (w : MainWindow.t) :
  inv w -> inv (fst (generateImage w)).
Proof.
  intros H.
  destruct (generateImage_cases w)
    as [(msg & _ & ->) | [(svg & _ & _ & ->) | (svg & Hg & V & ->)]]; simpl.
  - apply (cache_inv_frame w); auto. simpl. intros r Hr.
    apply in_or_app. now left.
  - intros svg' E. discriminate.
  - intros svg' E. simpl in E. injection E as <-.
    split; [exact V|]. exists (MainWindow.request w). simpl.
    repeat split; auto. apply in_or_app. right. now left.
Qed.

Lemma updateImage_inv (w : MainWindow.t) : inv w -> inv (fst (updateImage w)).
Proof.
  intros H. rewrite updateImage_fst.
  pose proof (generateImage_inv w H) as H'.
  destruct (snd (generateImage w)); [|exact H'].
  apply (cache_inv_frame (fst (generateImage w))); auto.
Qed.

Lemma updateImage_times_inv (n : nat) (w : MainWindow.t) :
  inv w -> inv (updateImage_times n w).
Proof.
  revert w. induction n as [|n IH]; intros w H; simpl; [exact H|].
  apply IH, updateImage_inv, H.
Qed.

Lemma showOutputDialog_frame (w : MainWindow.t) (file_path : string) :
  let w' := fst (MainWindow.showOutputDialog w file_path) in
  MainWindow.__svg_data w' = MainWindow.__svg_data w
  /\ MainWindow.__image w' = MainWindow.__image w
  /\ MainWindow.generate_calls w' = MainWindow.generate_calls w
  /\ MainWindow.request w' = MainWindow.request w.
Proof.
  unfold MainWindow.showOutputDialog.
  destruct (MainWindow.__svg_data w) as [svg|] eqn:E;
    [|simpl; repeat split; auto].
  destruct (is_empty svg); [simpl; repeat split; auto|].
  destruct (is_empty file_path); [simpl; repeat split; auto|].
  destruct (endswith file_path ".svg"); [simpl; repeat split; auto|].
  destruct (endswith file_path ".png" || endswith file_path ".jpg");
    [|simpl; repeat split; auto].
  destruct (MainWindow.__image w) eqn:I; simpl; repeat split; auto.
Qed.

Lemma handle_inv (w : MainWindow.t) (e : MainWindow.event) :
  inv w -> inv (handle w e).
Proof.
  intros H. destruct e as [f o | f o | i | | | vw vh | file_path]; simpl.
  - apply updateImage_times_inv. apply (cache_inv_frame w); auto.
  - apply updateImage_times_inv. apply (cache_inv_frame w); auto.
  - destruct (QComboBox.setCurrentIndex (MainWindow.wire_style_combo w) i)
      as [c [j|]].
    + apply updateImage_inv. apply (cache_inv_frame w); auto.
    + apply (cache_inv_frame w); auto.
  - apply (cache_inv_frame w); auto.
  - apply (cache_inv_frame w); auto.
  - apply (cache_inv_frame w); auto.
  - destruct (showOutputDialog_frame w file_path) as (Hs & Hi & Hc & _).
    apply (cache_inv_frame w); auto. now rewrite Hc.
Qed.


(** The window, once built, satisfies the invariant of its cache. *)
Lemma init_cache_inv (view_width view_height : Z) :
  inv (fst (MainWindow.__init__ other_format wallpaper_generate
              QSvgRenderer_isValid view_width view_height)).
Proof.
  unfold MainWindow.__init__. apply updateImage_inv.
  intros svg E. discriminate.
Qed.

End Pipeline.

(** ** The preview pipeline: failure, redisplay, export, repetition *)

Section PipelineClaims.

Variable other_format : string -> option (byte * byte * byte).
Variable wallpaper_generate : Request -> generated.
Variable QSvgRenderer_isValid : string -> bool.

Abbreviation generateImage' :=
  (MainWindow.generateImage wallpaper_generate QSvgRenderer_isValid).
Abbreviation updateImage' :=
  (MainWindow.updateImage wallpaper_generate QSvgRenderer_isValid).
Abbreviation run' :=
  (MainWindow.run other_format wallpaper_generate QSvgRenderer_isValid).

(** C2.  When the renderer refuses the markup, [generateImage] raises and
    the markup is cleared, but the image of the previous run stays in the
    window: the next resize shows it again. *)
Theorem generateImage_invalid_markup (w : MainWindow.t) (svg : string) :
  wallpaper_generate (MainWindow.request w) = Markup svg ->
  QSvgRenderer_isValid svg = false ->
  let w' := fst (generateImage' w) in
  snd (generateImage' w) = Raise "Generated SVG is not valid"
  /\ MainWindow.__svg_data w' = None
  /\ MainWindow.__image w' = MainWindow.__image w
  /\ ImageView.pixmap (MainWindow.view (MainWindow.resizeEvent w'))
     = Some (scaled (MainWindow.__image w)
               (ImageView.width (MainWindow.view w))
               (ImageView.height (MainWindow.view w))
               KeepAspectRatio SmoothTransformation).
Proof.
  intros Hg Hv w'. subst w'.
  destruct (generateImage_cases wallpaper_generate QSvgRenderer_isValid w)
    as [(msg & E & _) | [(svg' & _ & _ & ->) | (svg' & E & V & _)]].
  - congruence.
  - simpl. auto.
  - rewrite Hg in E. injection E as <-. congruence.
Qed.

Lemma redisplay_frame (w : MainWindow.t) (e : Redisplay) :
  let w' := MainWindow.handle other_format wallpaper_generate
              QSvgRenderer_isValid w (Redisplay_event e) in
  MainWindow.generate_calls w' = MainWindow.generate_calls w
  /\ MainWindow.__svg_data w' = MainWindow.__svg_data w
  /\ MainWindow.__image w' = MainWindow.__image w
  /\ MainWindow.request w' = MainWindow.request w
  /\ MainWindow.written w' = MainWindow.written w.
Proof. destruct e; simpl; auto 10. Qed.

(** C3.  Resize events, splitter moves and new geometries of the view, in
    any number, never call the generator and leave markup, image and
    parameters as they were; [resizeEvent] shows the cached image scaled to
    the view, keeping the aspect ratio, with the smooth transformation. *)
Theorem resize_redisplays_cache (w : MainWindow.t) (es : list Redisplay) :
  let w' := run' w (map Redisplay_event es) in
  MainWindow.generate_calls w' = MainWindow.generate_calls w
  /\ MainWindow.__svg_data w' = MainWindow.__svg_data w
  /\ MainWindow.__image w' = MainWindow.__image w
  /\ MainWindow.request w' = MainWindow.request w
  /\ ImageView.pixmap (MainWindow.view (MainWindow.resizeEvent w))
     = Some (scaled (MainWindow.__image w)
               (ImageView.width (MainWindow.view w))
               (ImageView.height (MainWindow.view w))
               KeepAspectRatio SmoothTransformation).
Proof.
  simpl. revert w. induction es as [|e es IH]; intros w; [simpl; auto 10|].
  change (run' w (map Redisplay_event (e :: es)))
    with (run' (MainWindow.handle other_format wallpaper_generate
                  QSvgRenderer_isValid w (Redisplay_event e))
            (map Redisplay_event es)).
  destruct (IH (MainWindow.handle other_format wallpaper_generate
                  QSvgRenderer_isValid w (Redisplay_event e)))
    as (H1 & H2 & H3 & H4 & _).
  destruct (redisplay_frame w e) as (F1 & F2 & F3 & F4 & _).
  simpl in F1, F2, F3, F4.
  rewrite H1, H2, H3, H4, F1, F2, F3, F4. auto 10.
Qed.



Lemma updateImage_unfold (w : MainWindow.t) :
  updateImage' w
  = let r := MainWindow.request w in
    let w0 := MainWindow.with_call r w in
    match wallpaper_generate r with
    | GenerateRaised msg => (w0, Raise msg)
    | Markup svg =>
        if QSvgRenderer_isValid svg then
          let image := mkQImage (as_int (req_width r)) (as_int (req_height r))
                         svg in
          (MainWindow.with_view
             (ImageView.setImage (MainWindow.view w) (Some image))
             (MainWindow.with_image (Some image)
                (MainWindow.with_svg_data (Some svg) w0)),
           Return tt)
        else
          (MainWindow.with_svg_data None (MainWindow.with_svg_data (Some svg) w0),
           Raise "Generated SVG is not valid")
    end.
Proof.
  unfold MainWindow.updateImage, MainWindow.generateImage. simpl.
  destruct (wallpaper_generate (MainWindow.request w)) as [svg | msg];
    [|reflexivity].
  destruct (QSvgRenderer_isValid svg); reflexivity.
Qed.

Lemma updateImage_request (w : MainWindow.t) :
  MainWindow.request (fst (updateImage' w)) = MainWindow.request w.
Proof.
  rewrite updateImage_fst.
  destruct (snd (generateImage' w)); apply generateImage_request.
Qed.


End PipelineClaims.

Lemma generateImage_invalid_markup_witness :
  sample_generate (MainWindow.request sample_window_seed7) = Markup "not markup"
  /\ sample_isValid "not markup" = false
  /\ MainWindow.__image sample_window_seed7
     = Some (mkQImage 1920 1080 "<svg/>")
  /\ MainWindow.__svg_data
       (fst (MainWindow.generateImage sample_generate sample_isValid
               sample_window_seed7)) = None
  /\ MainWindow.__image
       (fst (MainWindow.generateImage sample_generate sample_isValid
               sample_window_seed7))
     = Some (mkQImage 1920 1080 "<svg/>").
Proof.
  assert (H1 : sample_generate (MainWindow.request sample_window_seed7)
               = Markup "not markup") by (vm_compute; reflexivity).
  assert (H2 : sample_isValid "not markup" = false) by reflexivity.
  assert (H3 : MainWindow.__image sample_window_seed7
               = Some (mkQImage 1920 1080 "<svg/>")) by (vm_compute; reflexivity).
  destruct (generateImage_invalid_markup sample_generate sample_isValid
              sample_window_seed7 "not markup" H1 H2) as (_ & A & B & _).
  split; [exact H1|]. split; [exact H2|]. split; [exact H3|].
  split; [exact A|]. rewrite B. exact H3.
Defined.


(** ** The declared range *)

Section DeclaredRange.


Lemma setValue_range (q : NumParameter.t) (v : pynum) (d : bool) :
  NumParameter.minimum (NumParameter.setValue q v d) = NumParameter.minimum q
  /\ NumParameter.maximum (NumParameter.setValue q v d) = NumParameter.maximum q.
Proof.
  unfold NumParameter.minimum, NumParameter.maximum. rewrite setValue_field.
  match goal with |- context [Field.setValue ?f ?x] =>
    destruct (Field_blockSignals_range false (fst (Field.setValue f x))) as [-> ->];
    destruct (Field_setValue_range f x) as [-> ->]
  end.
  apply Field_blockSignals_range.
Qed.







End DeclaredRange.

(** * Further properties *)

(** ** NumParameter: signals of the widgets *)

Section NumParameterSignals.















End NumParameterSignals.

(** ** NumParameter: the edits of the user *)

Section NumParameterEdits.

Lemma _updateValueFromField_emitted (q : NumParameter.t) (v : pynum) :
  NumParameter.emitted (NumParameter._updateValueFromField q v)
  = if NumParameter.signalsBlocked q then NumParameter.emitted q
    else S (NumParameter.emitted q).
Proof.
  unfold NumParameter._updateValueFromField, NumParameter.valueChanged_emit.
  simpl. destruct (NumParameter.signalsBlocked q); reflexivity.
Qed.

Lemma _updateValueFromSlider_emitted (q : NumParameter.t) (v : Z) :
  NumParameter.emitted (NumParameter._updateValueFromSlider q v)
  = if NumParameter.signalsBlocked q then NumParameter.emitted q
    else S (NumParameter.emitted q).
Proof.
  unfold NumParameter._updateValueFromSlider, NumParameter.valueChanged_emit.
  simpl. destruct (NumParameter.signalsBlocked q); reflexivity.
Qed.








End NumParameterEdits.


(** ** NumParameter: the silent operations, and [setValue] read back *)

Section NumParameterSilent.

Lemma field_valueChanged_blocked (q : NumParameter.t) (e : option pynum) :
  NumParameter.signalsBlocked q = true ->
  NumParameter.emitted (NumParameter.field_valueChanged q e) = NumParameter.emitted q.
Proof.
  intros H. unfold NumParameter.field_valueChanged.
  destruct e as [v|]; [destruct (NumParameter.connected q)|]; auto.
  now rewrite _updateValueFromField_emitted, H.
Qed.

Lemma slider_valueChanged_blocked (q : NumParameter.t) (e : option Z) :
  NumParameter.signalsBlocked q = true ->
  NumParameter.emitted (NumParameter.slider_valueChanged q e) = NumParameter.emitted q.
Proof.
  intros H. unfold NumParameter.slider_valueChanged.
  destruct e as [v|]; [destruct (NumParameter.connected q)|]; auto.
  now rewrite _updateValueFromSlider_emitted, H.
Qed.

Lemma setRange_emitted (q : NumParameter.t) (lo hi : pynum) :
  NumParameter.emitted (NumParameter.setRange q lo hi) = NumParameter.emitted q.
Proof.
  unfold NumParameter.setRange.
  destruct (Field.setRange (NumParameter.field (NumParameter.blockSignals true q))
              lo hi) as [f e].
  set (q1 := NumParameter.with_field f (NumParameter.blockSignals true q)).
  assert (B1 : NumParameter.signalsBlocked q1 = true) by reflexivity.
  assert (E1 : NumParameter.emitted q1 = NumParameter.emitted q) by reflexivity.
  clearbody q1.
  set (q2 := NumParameter.field_valueChanged q1 e).
  assert (B2 : NumParameter.signalsBlocked q2 = true).
  { subst q2. destruct (field_valueChanged_same q1 e) as (_ & _ & _ & -> & _).
    exact B1. }
  assert (E2 : NumParameter.emitted q2 = NumParameter.emitted q)
    by (subst q2; rewrite field_valueChanged_blocked; assumption).
  clearbody q2.
  match goal with |- context [let (_, _) := ?x in _] => destruct x as [s e'] end.
  simpl. rewrite slider_valueChanged_blocked; assumption.
Qed.

Lemma setValue_value_by_range (q1 q2 : NumParameter.t) (v : pynum) (d1 d2 : bool) :
  NumParameter_inv q1 -> NumParameter_inv q2 ->
  NumParameter._type q1 = NumParameter._type q2 ->
  NumParameter.minimum q1 = NumParameter.minimum q2 ->
  NumParameter.maximum q1 = NumParameter.maximum q2 ->
  NumParameter.value (NumParameter.setValue q1 v d1)
  = NumParameter.value (NumParameter.setValue q2 v d2).
Proof.
  intros H1 H2 Ht. pose proof H1 as (_ & K1 & _). pose proof H2 as (_ & K2 & _).
  unfold NumParameter.minimum, NumParameter.maximum.
  rewrite <- K1, <- K2 in Ht.
  destruct (NumParameter.field q1) as [w1 | w1] eqn:F1;
    destruct (NumParameter.field q2) as [w2 | w2] eqn:F2;
    try discriminate; simpl; intros [= Hmin] [= Hmax].
  - rewrite (setValue_value_int q1 w1), (setValue_value_int q2 w2); auto.
    unfold QSpinBox.bound. now rewrite Hmin, Hmax.
  - rewrite (setValue_value_float q1 w1), (setValue_value_float q2 w2); auto.
    unfold QDoubleSpinBox.bound. now rewrite Hmin, Hmax.
Qed.

(** X2.  [setRange], [setSingleStep] and [setDefaultValue] never deliver
    [valueChanged], in any state; the last two leave [value()] as it is,
    while [setRange] can move it silently: [setRange(1, 500)] on
    [NumParameter(1080, (1, 4096), 128)] makes [value()] 500 with no
    notification. *)
Theorem range_step_default_are_silent :
  (forall (q : NumParameter.t) (lo hi s v : pynum),
      NumParameter.emitted (NumParameter.setRange q lo hi) = NumParameter.emitted q
      /\ NumParameter.emitted (NumParameter.setSingleStep q s)
         = NumParameter.emitted q
      /\ NumParameter.emitted (NumParameter.setDefaultValue q v)
         = NumParameter.emitted q
      /\ NumParameter.value (NumParameter.setSingleStep q s) = NumParameter.value q
      /\ NumParameter.value (NumParameter.setDefaultValue q v)
         = NumParameter.value q)
  /\ (let p := NumParameter.__init__ (PyInt 1080) (Some (PyInt 1, PyInt 4096))
                 (Some (PyInt 128)) in
      NumParameter.value p = PyInt 1080
      /\ NumParameter.value (NumParameter.setRange p (PyInt 1) (PyInt 500))
         = PyInt 500).
Proof.
  split; [|split; reflexivity].
  intros q lo hi s v. split; [apply setRange_emitted|].
  split; [reflexivity|]. split; [reflexivity|]. split; [|reflexivity].
  unfold NumParameter.value, NumParameter.setSingleStep. simpl.
  destruct (NumParameter.field q) as [w | w]; simpl.
  - unfold QSpinBox.setSingleStep. destruct (0 <=? as_int s); reflexivity.
  - unfold QDoubleSpinBox.setSingleStep.
    destruct (Qle_bool 0 (as_double s)); reflexivity.
Qed.

(** X3.  [value()] is a fixed point of [setValue], and [setValue] is
    idempotent: handing a parameter the value it reports leaves [value()]
    unchanged, and a second [setValue(v)] reports what the first did. *)
Theorem setValue_read_back value0 value_range single_step ops
    (v : pynum) (d d' : bool) :
  let p := NumParameter.run
             (NumParameter.__init__ value0 value_range single_step) ops in
  NumParameter.value (NumParameter.setValue p (NumParameter.value p) d)
  = NumParameter.value p
  /\ NumParameter.value (NumParameter.setValue (NumParameter.setValue p v d) v d')
     = NumParameter.value (NumParameter.setValue p v d).
Proof.
  intros p.
  pose proof (reachable_inv value0 value_range single_step ops) as Hinv.
  fold p in Hinv. split.
  - destruct (value_in_field_range p Hinv) as [H1 H2].
    rewrite (setValue_in_range p _ d Hinv H1 H2).
    pose proof Hinv as (_ & Hk & Hok).
    rewrite (value_is_field_value p (proj2 Hinv)). rewrite <- Hk.
    destruct (NumParameter.field p) as [w | w]; simpl.
    + reflexivity.
    + destruct Hok as (_ & _ & _ & ->). reflexivity.
  - assert (H1 : NumParameter_inv (NumParameter.setValue p v d))
      by now apply setValue_inv.
    assert (E : NumParameter.value
                  (NumParameter.setValue (NumParameter.setValue p v d) v d')
                = NumParameter.value (NumParameter.setValue p v d')).
    { destruct (setValue_range p v d) as [R1 R2].
      apply setValue_value_by_range; auto.
      rewrite setValue_unfold.
      match goal with |- context [NumParameter.valueChanged_emit ?x] =>
        destruct (valueChanged_emit_same x) as (-> & _) end.
      reflexivity. }
    rewrite E. apply setValue_value_by_range; auto.
Qed.

End NumParameterSilent.

(** ** NumParameter: field and slider in lockstep *)

Section Units.

Local Open Scope Q_scope.










End Units.

Section WidgetUnits.







Lemma Field_setValue_signal (f : Field.t) (v : pynum) :
  snd (Field.setValue f v) = None
  \/ snd (Field.setValue f v) = Some (Field.value (fst (Field.setValue f v))).
Proof.
  destruct f as [w | w]; simpl;
    match goal with |- context [if ?c then _ else _] => destruct c end; auto.
Qed.







End WidgetUnits.

Section Lockstep.













End Lockstep.

Section LockstepClaims.









End LockstepClaims.

Section Paths.






End Paths.

(** ** ColorParameter: text, button and default *)

Section ColorParameterMore.

Variable other_format : string -> option (byte * byte * byte).

Abbreviation QColor_of' := (ColorParameter.QColor_of other_format).
Abbreviation color_setValue := (ColorParameter.setValue other_format).
Abbreviation color_run := (ColorParameter.run other_format).
Abbreviation color_init := (ColorParameter.__init__ other_format).

Lemma setText_flag (w : QLineEdit.t) (s : string) :
  QLineEdit.signalsBlocked (fst (QLineEdit.setText w s)) = QLineEdit.signalsBlocked w.
Proof.
  unfold QLineEdit.setText. destruct (String.eqb (QLineEdit.text w) s); reflexivity.
Qed.

Lemma Color_step_unblocked (p : ColorParameter.t) (o : ColorParameter.op) :
  QLineEdit.signalsBlocked
    (ColorParameter.field (ColorParameter.step other_format p o))
  = QLineEdit.signalsBlocked (ColorParameter.field p).
Proof.
  assert (Hs : forall v d,
             QLineEdit.signalsBlocked (ColorParameter.field (color_setValue p v d))
             = QLineEdit.signalsBlocked (ColorParameter.field p)).
  { intros v d. destruct (QColor.isValid (QColor_of' v)) eqn:H.
    - rewrite setValue_valid by exact H. simpl. apply setText_flag.
    - now rewrite setValue_invalid. }
  destruct o as [v d | v | | c | s]; simpl; try apply Hs.
  - unfold ColorParameter.setDefaultValue.
    destruct (negb (QColor.isValid (QColor_of' v))); reflexivity.
  - unfold ColorParameter.textEdited.
    pose proof (setText_flag (ColorParameter.field p) s) as Hf.
    destruct (QLineEdit.setText (ColorParameter.field p) s) as [f [e|]];
      simpl in *; [|exact Hf].
    destruct (ColorParameter.connected p); exact Hf.
Qed.

(** A colour parameter the program can hold has its slot connected and its
    field unblocked. *)
Lemma Color_reachable_quiet (color0 : pycolor) (ops : list ColorParameter.op) :
  let p := color_run (color_init color0) ops in
  ColorParameter.connected p = true
  /\ QLineEdit.signalsBlocked (ColorParameter.field p) = false.
Proof.
  simpl. split; [now rewrite Color_run_connected|].
  assert (H0 : QLineEdit.signalsBlocked
                 (ColorParameter.field (color_init color0)) = false).
  { unfold ColorParameter.__init__. simpl.
    exact (Color_step_unblocked
             (ColorParameter.mk QLineEdit.new None color0 false [])
             (ColorParameter.SetValue color0 false)). }
  revert H0. generalize (color_init color0).
  induction ops as [|o ops IH]; intros q H; [exact H|].
  apply (IH (ColorParameter.step other_format q o)).
  now rewrite Color_step_unblocked.
Qed.

(** X7.  After a [setValue] with a readable colour the text of the field
    and the colour of the button agree: the text is the name of the colour,
    the button has its red, green and blue, and the text reads back as a
    valid colour with the same three components. *)
Theorem setValue_text_and_button_agree (p : ColorParameter.t) (v : pycolor)
    (d : bool) :
  QColor.isValid (QColor_of' v) = true ->
  let p' := color_setValue p v d in
  let c := QColor_of' (Str (ColorParameter.value p')) in
  ColorParameter.value p' = QColor.name (QColor_of' v)
  /\ QColor.isValid c = true
  /\ QColor.toTuple3 c = QColor.toTuple3 (QColor_of' v)
  /\ ColorParameter.color_button p' = Some (QColor.toTuple3 c).
Proof.
  intros H p' c.
  assert (Hval : ColorParameter.value p' = QColor.name (QColor_of' v))
    by (apply setValue_value; exact H).
  assert (Hc : c = QColor.rgb (QColor.red (QColor_of' v))
                     (QColor.green (QColor_of' v)) (QColor.blue (QColor_of' v))).
  { unfold c. rewrite Hval. apply fromString_name. }
  split; [exact Hval|]. rewrite Hc. split; [reflexivity|]. split; [reflexivity|].
  unfold p'. rewrite setValue_valid by exact H. reflexivity.
Qed.

(** X8.  Text typed in the field is not checked: whatever the text, valid
    colour or not, it becomes [value()], listeners get it once if it differs
    from the text before and not at all otherwise, and neither the button
    nor the default follow. *)
Theorem typed_text_is_not_checked (color0 : pycolor)
    (ops : list ColorParameter.op) (s : string) :
  let p := color_run (color_init color0) ops in
  let p' := ColorParameter.textEdited p s in
  ColorParameter.value p' = s
  /\ ColorParameter.emitted p'
     = ColorParameter.emitted p
       ++ (if String.eqb (ColorParameter.value p) s then [] else [s])
  /\ ColorParameter.color_button p' = ColorParameter.color_button p
  /\ ColorParameter.defaultValue p' = ColorParameter.defaultValue p.
Proof.
  intros p p'. destruct (Color_reachable_quiet color0 ops) as [Hc Hb].
  fold p in Hc, Hb. unfold p', ColorParameter.textEdited, ColorParameter.value.
  pose proof (setText_text (ColorParameter.field p) s) as Ht.
  unfold QLineEdit.setText in *.
  destruct (String.eqb (QLineEdit.text (ColorParameter.field p)) s) eqn:E.
  - simpl in *. rewrite app_nil_r. auto.
  - rewrite Hb. simpl. rewrite Hc. simpl. auto.
Qed.

(** X9.  [setDefaultValue] followed by [resetToDefault]: with a readable
    colour [value()] becomes the name of that colour; an unreadable colour
    is ignored by [setDefaultValue], which then changes nothing at all. *)
Theorem setDefaultValue_then_reset (p : ColorParameter.t) (v : pycolor) :
  (QColor.isValid (QColor_of' v) = true ->
   ColorParameter.value
     (ColorParameter.resetToDefault other_format
        (ColorParameter.setDefaultValue other_format p v))
   = QColor.name (QColor_of' v))
  /\ (QColor.isValid (QColor_of' v) = false ->
      ColorParameter.setDefaultValue other_format p v = p).
Proof.
  unfold ColorParameter.setDefaultValue. split; intros H; rewrite H; simpl.
  - unfold ColorParameter.resetToDefault. simpl ColorParameter._dvalue.
    rewrite setValue_value.
    + apply (name_fromString_name other_format).
    + apply (isValid_fromString_name other_format).
  - reflexivity.
Qed.

(** X10.  A parameter built with an unreadable colour has an empty text,
    no button colour, and has notified nobody; and as long as the default
    is unreadable, that is until a readable colour is passed with
    [use_as_default=True], [resetToDefault] does nothing. *)
Theorem unreadable_default_never_resets (color0 : pycolor) (es : list ColorEdit) :
  (QColor.isValid (QColor_of' color0) = false ->
   ColorParameter.value (color_init color0) = EmptyString
   /\ ColorParameter.color_button (color_init color0) = None
   /\ ColorParameter.emitted (color_init color0) = [])
  /\ (let p := color_run (color_init color0) (map ColorEdit_op es) in
      QColor.isValid (QColor_of' (last_default_color other_format color0 es))
      = false ->
      ColorParameter.resetToDefault other_format p = p).
Proof.
  split.
  - intros H. unfold ColorParameter.__init__.
    rewrite setValue_invalid by exact H. auto.
  - intros p H. unfold ColorParameter.resetToDefault.
    apply setValue_invalid.
    unfold p. rewrite Color_run_dvalue. exact H.
Qed.

End ColorParameterMore.

Lemma setValue_text_and_button_agree_witness :
  let p := ColorParameter.__init__ hex_only
             (Color (QColor.fromString hex_only "#ffffff")) in
  QColor.isValid (ColorParameter.QColor_of hex_only (Str "#1A2b3C")) = true
  /\ ColorParameter.value (ColorParameter.setValue hex_only p (Str "#1A2b3C") false)
     = QColor.name (ColorParameter.QColor_of hex_only (Str "#1A2b3C")).
Proof.
  intros p. split; [reflexivity|].
  exact (proj1 (setValue_text_and_button_agree hex_only p (Str "#1A2b3C") false
                  eq_refl)).
Defined.

Lemma setDefaultValue_then_reset_witness :
  let p := ColorParameter.__init__ hex_only
             (Color (QColor.fromString hex_only "#ffffff")) in
  QColor.isValid (ColorParameter.QColor_of hex_only (Str "#102030")) = true
  /\ ColorParameter.value
       (ColorParameter.resetToDefault hex_only
          (ColorParameter.setDefaultValue hex_only p (Str "#102030")))
     = "#102030"%string.
Proof.
  intros p. split; [reflexivity|].
  exact (proj1 (setDefaultValue_then_reset hex_only p (Str "#102030")) eq_refl).
Defined.

Lemma unreadable_default_never_resets_witness :
  let es := [ColorSetValue (Str "#102030") false; ColorType "red"] in
  let p := ColorParameter.run hex_only
             (ColorParameter.__init__ hex_only (Str "no colour"))
             (map ColorEdit_op es) in
  QColor.isValid
    (ColorParameter.QColor_of hex_only
       (last_default_color hex_only (Str "no colour") es)) = false
  /\ ColorParameter.value p = "red"%string
  /\ ColorParameter.resetToDefault hex_only p = p.
Proof.
  intros es p. split; [reflexivity|]. split; [reflexivity|].
  exact (proj2 (unreadable_default_never_resets hex_only (Str "no colour") es)
           eq_refl).
Defined.

(** ** NumParameter: the constructor *)

Section Constructor.




End Constructor.

(** ** The window: what every state of a built window satisfies *)

Section Window.

Variable other_format : string -> option (byte * byte * byte).
Variable wallpaper_generate : Request -> generated.
Variable QSvgRenderer_isValid : string -> bool.

Abbreviation w_updateImage :=
  (MainWindow.updateImage wallpaper_generate QSvgRenderer_isValid).
Abbreviation w_updateImage_times :=
  (MainWindow.updateImage_times wallpaper_generate QSvgRenderer_isValid).
Abbreviation w_handle :=
  (MainWindow.handle other_format wallpaper_generate QSvgRenderer_isValid).
Abbreviation w_run :=
  (MainWindow.run other_format wallpaper_generate QSvgRenderer_isValid).
Abbreviation w_init :=
  (MainWindow.__init__ other_format wallpaper_generate QSvgRenderer_isValid).

Lemma updateImage_frame (w : MainWindow.t) :
  let w' := fst (w_updateImage w) in
  MainWindow.nums w' = MainWindow.nums w
  /\ MainWindow.colors w' = MainWindow.colors w
  /\ MainWindow.wire_style_combo w' = MainWindow.wire_style_combo w
  /\ MainWindow.written w' = MainWindow.written w
  /\ MainWindow.generate_calls w'
     = MainWindow.generate_calls w ++ [MainWindow.request w].
Proof.
  simpl. rewrite updateImage_unfold. simpl.
  destruct (wallpaper_generate (MainWindow.request w)) as [svg | msg];
    [|simpl; auto].
  destruct (QSvgRenderer_isValid svg); simpl; auto.
Qed.

Lemma updateImage_times_frame (n : nat) (w : MainWindow.t) :
  let w' := w_updateImage_times n w in
  MainWindow.nums w' = MainWindow.nums w
  /\ MainWindow.colors w' = MainWindow.colors w
  /\ MainWindow.wire_style_combo w' = MainWindow.wire_style_combo w
  /\ MainWindow.written w' = MainWindow.written w
  /\ MainWindow.generate_calls w'
     = MainWindow.generate_calls w ++ repeat (MainWindow.request w) n.
Proof.
  revert w. induction n as [|n IH]; intros w; simpl.
  - rewrite app_nil_r. auto.
  - destruct (IH (fst (w_updateImage w))) as (H1 & H2 & H3 & H4 & H5).
    destruct (updateImage_frame w) as (F1 & F2 & F3 & F4 & F5).
    simpl in *. rewrite H1, H2, H3, H4, H5, F1, F2, F3, F4, F5.
    rewrite (updateImage_request wallpaper_generate QSvgRenderer_isValid w).
    rewrite <- app_assoc. auto.
Qed.

Lemma updateImage_shows (w : MainWindow.t) :
  shows_cache w \/ snd (w_updateImage w) = Return tt ->
  shows_cache (fst (w_updateImage w)).
Proof.
  rewrite updateImage_unfold. simpl.
  destruct (wallpaper_generate (MainWindow.request w)) as [svg | msg].
  - destruct (QSvgRenderer_isValid svg); simpl.
    + intros _. eexists. eexists. simpl. repeat split.
    + intros [H | H]; [exact H|discriminate].
  - simpl. intros [H | H]; [exact H|discriminate].
Qed.

Lemma updateImage_times_shows (n : nat) (w : MainWindow.t) :
  shows_cache w -> shows_cache (w_updateImage_times n w).
Proof.
  revert w. induction n as [|n IH]; intros w H; simpl; [exact H|].
  apply IH, updateImage_shows. now left.
Qed.

Lemma handle_shows (w : MainWindow.t) (e : MainWindow.event) :
  shows_cache w -> shows_cache (w_handle w e).
Proof.
  intros H. destruct e as [f o | f o | i | | | vw vh | file_path]; simpl.
  - apply updateImage_times_shows. exact H.
  - apply updateImage_times_shows. exact H.
  - destruct (QComboBox.setCurrentIndex (MainWindow.wire_style_combo w) i)
      as [c [j|]]; [|exact H].
    apply updateImage_shows. left. exact H.
  - destruct H as (image & pm & H1 & _). unfold MainWindow.resizeEvent.
    exists image. eexists. simpl. rewrite H1. repeat split.
  - destruct H as (image & pm & H1 & _).
    exists image. eexists. simpl. rewrite H1. repeat split.
  - exact H.
  - destruct (showOutputDialog_frame w file_path) as (_ & Hi & _).
    destruct H as (image & pm & H1 & H2 & H3 & H4 & H5).
    exists image, pm. rewrite Hi. repeat split; auto.
    unfold MainWindow.showOutputDialog.
    repeat match goal with
           | |- context [match ?x with _ => _ end] => destruct x
           end; simpl; exact H2.
Qed.

Lemma handle_params_ok (w : MainWindow.t) (e : MainWindow.event) :
  params_ok w -> params_ok (w_handle w e).
Proof.
  intros [Hn Hc]. destruct e as [f o | f o | i | | | vw vh | file_path]; simpl.
  - match goal with |- params_ok (MainWindow.updateImage_times _ _ ?n ?x) =>
      destruct (updateImage_times_frame n x) as (F1 & F2 & _) end.
    simpl in F1, F2. split; intros g.
    + rewrite F1. destruct (NumField_eq_dec g f); [apply step_inv|]; apply Hn.
    + rewrite F2. apply Hc.
  - match goal with |- params_ok (MainWindow.updateImage_times _ _ ?n ?x) =>
      destruct (updateImage_times_frame n x) as (F1 & F2 & _) end.
    simpl in F1, F2. split; intros g.
    + rewrite F1. apply Hn.
    + rewrite F2. destruct (ColorField_eq_dec g f); [|apply Hc].
      rewrite Color_step_connected, Color_step_unblocked. apply Hc.
  - destruct (QComboBox.setCurrentIndex (MainWindow.wire_style_combo w) i)
      as [c [j|]].
    + destruct (updateImage_frame (MainWindow.with_combo c w)) as (F1 & F2 & _).
      simpl in F1, F2. split; intros g; [rewrite F1|rewrite F2]; auto.
    + split; assumption.
  - split; assumption.
  - split; assumption.
  - split; assumption.
  - unfold MainWindow.showOutputDialog.
    repeat match goal with
           | |- context [match ?x with _ => _ end] => destruct x
           end; split; assumption.
Qed.

Lemma init_params_ok (view_width view_height : Z) :
  params_ok (fst (w_init view_width view_height)).
Proof.
  unfold MainWindow.__init__.
  match goal with |- params_ok (fst (MainWindow.updateImage _ _ ?x)) =>
    destruct (updateImage_frame x) as (F1 & F2 & _) end.
  simpl in F1, F2. split; intros f; [rewrite F1|rewrite F2].
  - destruct (MainWindow.NumParameter_args f) as [[v r] s]. apply init_inv.
  - apply (Color_reachable_quiet other_format _ []).
Qed.

(** What holds in every state of a window that was built. *)
Lemma reachable_window (view_width view_height : Z) (w0 : MainWindow.t)
    (es : list MainWindow.event) :
  w_init view_width view_height = (w0, Return tt) ->
  let w := w_run w0 es in
  shows_cache w /\ params_ok w
  /\ cache_inv wallpaper_generate QSvgRenderer_isValid w.
Proof.
  intros Hinit.
  assert (H0 : shows_cache w0 /\ params_ok w0
               /\ cache_inv wallpaper_generate QSvgRenderer_isValid w0).
  { pose proof (init_params_ok view_width view_height) as P.
    pose proof (init_cache_inv other_format wallpaper_generate
                  QSvgRenderer_isValid view_width view_height) as C.
    rewrite Hinit in P, C. simpl in P, C. split; [|auto].
    unfold MainWindow.__init__ in Hinit.
    match type of Hinit with MainWindow.updateImage _ _ ?x = _ =>
      pose proof (updateImage_shows x) as S end.
    rewrite Hinit in S. apply S. now right. }
  clear Hinit. simpl. revert w0 H0.
  induction es as [|e es IH]; intros w0 H0; [exact H0|].
  apply (IH (w_handle w0 e)). destruct H0 as (S & P & C).
  split; [now apply handle_shows|]. split; [now apply handle_params_ok|].
  now apply handle_inv.
Qed.

(** X12.  In every state of a window that was built, whatever happened to
    it since, there is a cached image and the view shows a pixmap scaled
    from exactly that image, with the aspect ratio kept and the smooth
    transformation: [setImage] never gets [None]. *)
Theorem window_shows_its_cache (view_width view_height : Z) (w0 : MainWindow.t)
    (es : list MainWindow.event) :
  w_init view_width view_height = (w0, Return tt) ->
  let w := w_run w0 es in
  exists image pm,
    MainWindow.__image w = Some image
    /\ ImageView.pixmap (MainWindow.view w) = Some pm
    /\ pm_source pm = Some image
    /\ pm_aspect pm = KeepAspectRatio
    /\ pm_transform pm = SmoothTransformation.
Proof.
  intros Hinit. exact (proj1 (reachable_window view_width view_height w0 es Hinit)).
Qed.





(** X15.  Building the window calls the generator exactly once, with the
    values the parameters are declared with (1920 x 1080, scale 0.8,
    rotation -7, slop 5, white background, grey strokes, Bezier wires,
    widths 2, saturation 1, lightness 0.5, seed 42).  If the constructor
    returns, the markup of that call is cached with its picture at
    1920 x 1080 and the view shows it; if it raises, nothing is cached. *)
Theorem startup_run (view_width view_height : Z) :
  let w0 := fst (w_init view_width view_height) in
  let outcome := snd (w_init view_width view_height) in
  MainWindow.generate_calls w0 = [startup_request]
  /\ (outcome = Return tt ->
      exists svg,
        wallpaper_generate startup_request = Markup svg
        /\ QSvgRenderer_isValid svg = true
        /\ MainWindow.__svg_data w0 = Some svg
        /\ MainWindow.__image w0 = Some (mkQImage 1920 1080 svg)
        /\ ImageView.pixmap (MainWindow.view w0)
           = Some (scaled (Some (mkQImage 1920 1080 svg)) view_width view_height
                     KeepAspectRatio SmoothTransformation))
  /\ (outcome <> Return tt ->
      MainWindow.__svg_data w0 = None /\ MainWindow.__image w0 = None).
Proof.
  unfold MainWindow.__init__.
  set (w := MainWindow.mk _ _ _ _ _ _ _ _).
  assert (R : MainWindow.request w = startup_request) by (vm_compute; reflexivity).
  rewrite updateImage_unfold. simpl. rewrite R.
  destruct (wallpaper_generate startup_request) as [svg | msg].
  - destruct (QSvgRenderer_isValid svg) eqn:V; simpl.
    + split; [reflexivity|]. split.
      * intros _. exists svg. auto 10.
      * intros H. now contradiction H.
    + split; [reflexivity|]. split; [discriminate|auto].
  - simpl. split; [reflexivity|]. split; [discriminate|auto].
Qed.

End Window.

Lemma sample_window_built :
  MainWindow.__init__ hex_only sample_generate sample_isValid 640 480
  = (sample_window, Return tt).
Proof.
  unfold sample_window.
  assert (Hs : snd (MainWindow.__init__ hex_only sample_generate sample_isValid
                      640 480) = Return tt) by (vm_compute; reflexivity).
  destruct (MainWindow.__init__ hex_only sample_generate sample_isValid 640 480)
    as [w r]. simpl in *. now rewrite Hs.
Defined.

Lemma window_shows_its_cache_witness :
  MainWindow.__init__ hex_only sample_generate sample_isValid 640 480
  = (sample_window, Return tt)
  /\ exists image pm,
       MainWindow.__image
         (MainWindow.run hex_only sample_generate sample_isValid sample_window
            [MainWindow.NumEvent seed_field (NumParameter.SetValue (PyInt 7) false);
             MainWindow.ResizeEvent]) = Some image
       /\ ImageView.pixmap
            (MainWindow.view
               (MainWindow.run hex_only sample_generate sample_isValid
                  sample_window
                  [MainWindow.NumEvent seed_field
                     (NumParameter.SetValue (PyInt 7) false);
                   MainWindow.ResizeEvent])) = Some pm
       /\ pm_source pm = Some image
       /\ pm_aspect pm = KeepAspectRatio
       /\ pm_transform pm = SmoothTransformation.
Proof.
  split; [exact sample_window_built|].
  exact (window_shows_its_cache hex_only sample_generate sample_isValid 640 480
           sample_window _ sample_window_built).
Defined.



Lemma startup_run_witness :
  snd (MainWindow.__init__ hex_only sample_generate sample_isValid 640 480)
  = Return tt
  /\ MainWindow.__image sample_window = Some (mkQImage 1920 1080 "<svg/>").
Proof.
  assert (H : snd (MainWindow.__init__ hex_only sample_generate sample_isValid
                     640 480) = Return tt) by (vm_compute; reflexivity).
  split; [exact H|].
  destruct (proj1 (proj2 (startup_run hex_only sample_generate sample_isValid
                            640 480)) H) as (svg & G & _ & _ & I & _).
  unfold sample_window. rewrite I. f_equal. f_equal.
  assert (G' : sample_generate startup_request = Markup "<svg/>") by reflexivity.
  rewrite G' in G. now injection G as <-.
Defined.

(** ** Event filters: the middle button *)

Section EventFilters.

Variable other_format : string -> option (byte * byte * byte).


(** X17.  On the field of a colour parameter only the release of the
    middle button with the control key and no other is swallowed; a press
    of the middle button goes on to the line edit.  That release resets:
    with a readable default [value()] becomes its name and the default is
    kept, with an unreadable one nothing happens.  Every other event leaves
    the parameter as it is. *)
Theorem middle_button_on_colour (color0 : pycolor)
    (ops : list ColorParameter.op) (obj : watched) (event : QEvent) :
  let p := ColorParameter.run other_format
             (ColorParameter.__init__ other_format color0) ops in
  let p' := fst (ColorParameter_eventFilter other_format p obj event) in
  let swallowed := snd (ColorParameter_eventFilter other_format p obj event) in
  let dflt := ColorParameter.QColor_of other_format (ColorParameter.defaultValue p) in
  let reset := obj = the_field
               /\ exists modifiers,
                    event = QMouseEvent MouseButtonRelease MiddleButton modifiers
                    /\ only_ControlModifier modifiers = true in
  (swallowed = true <-> reset)
  /\ (reset -> QColor.isValid dflt = true ->
      ColorParameter.value p' = QColor.name dflt
      /\ ColorParameter.defaultValue p' = ColorParameter.defaultValue p
      /\ ColorParameter.emitted p'
         = ColorParameter.emitted p
           ++ (if String.eqb (ColorParameter.value p) (QColor.name dflt)
               then [QColor.name dflt] else [QColor.name dflt; QColor.name dflt]))
  /\ (reset -> QColor.isValid dflt = false -> p' = p)
  /\ (~ reset -> p' = p).
Proof.
  intros p p' swallowed dflt reset.
  assert (E : forall m, only_ControlModifier m = true ->
                ColorParameter_eventFilter other_format p the_field
                  (QMouseEvent MouseButtonRelease MiddleButton m)
                = (ColorParameter.setValue other_format p
                     (ColorParameter.defaultValue p) false, true)).
  { intros m Hm. unfold ColorParameter_eventFilter. rewrite Hm. reflexivity. }
  split; [|split; [|split]].
  - unfold swallowed. split.
    + unfold ColorParameter_eventFilter. intros H.
      destruct obj; try discriminate; destruct event as [ty b m|];
        try discriminate; destruct ty; try discriminate;
        destruct b; try discriminate;
        destruct (only_ControlModifier m) eqn:Hm; try discriminate.
      split; [reflexivity|eauto].
    + intros (-> & m & -> & Hm). now rewrite E.
  - intros (Ho & m & He & Hm) Hv. unfold p'. rewrite Ho, He, E by exact Hm.
    simpl fst. split; [now apply setValue_value|].
    split.
    + unfold ColorParameter.defaultValue. now rewrite setValue_dvalue.
    + destruct (Color_reachable_quiet other_format color0 ops) as [Hc Hb].
      fold p in Hc, Hb.
      rewrite setValue_valid by exact Hv. fold dflt. simpl.
      rewrite Hc. unfold QLineEdit.setText, ColorParameter.value.
      destruct (String.eqb (QLineEdit.text (ColorParameter.field p))
                  (QColor.name dflt)); simpl; [reflexivity|].
      rewrite Hb. reflexivity.
  - intros (Ho & m & He & Hm) Hv. unfold p'. rewrite Ho, He, E by exact Hm.
    simpl fst. now apply setValue_invalid.
  - intros Hn. unfold p', ColorParameter_eventFilter.
    destruct obj; try reflexivity; destruct event as [ty b m|];
      try reflexivity; destruct ty; try reflexivity;
      destruct b; try reflexivity;
      destruct (only_ControlModifier m) eqn:Hm; try reflexivity.
    exfalso. apply Hn. split; [reflexivity|eauto].
Qed.

End EventFilters.


Lemma middle_button_on_colour_witness :
  let p := ColorParameter.run hex_only
             (ColorParameter.__init__ hex_only (Str "#ffffff"))
             [ColorParameter.SetValue (Str "#000000") false] in
  let click := QMouseEvent MouseButtonRelease MiddleButton
                 (mkKeyboardModifiers false true false false false false) in
  QColor.isValid (ColorParameter.QColor_of hex_only (ColorParameter.defaultValue p))
  = true
  /\ ColorParameter.value p = "#000000"%string
  /\ ColorParameter.value
       (fst (ColorParameter_eventFilter hex_only p the_field click))
     = "#ffffff"%string.
Proof.
  intros p click.
  assert (H1 : QColor.isValid
                 (ColorParameter.QColor_of hex_only (ColorParameter.defaultValue p))
               = true) by (vm_compute; reflexivity).
  split; [exact H1|]. split; [vm_compute; reflexivity|].
  assert (R : the_field = the_field
              /\ exists modifiers,
                   click = QMouseEvent MouseButtonRelease MiddleButton modifiers
                   /\ only_ControlModifier modifiers = true).
  { split; [reflexivity|]. eexists. split; reflexivity. }
  exact (proj1 (proj1 (proj2
           (middle_button_on_colour hex_only (Str "#ffffff")
              [ColorParameter.SetValue (Str "#000000") false]
              the_field click)) R H1)).
Defined.
